(** * ShoppyGlobe: the cart and products Redux slices

    A shallow embedding of
    - [src/lib/features/cart/cart-slice.js] (module [Cart]) and
    - the products slice with its memoized selector (module [Products]),
    followed by the properties of the two reducers and of the derived
    product list.

    Modelling conventions.
    - A JavaScript array is a [list]; the reducers are written against an
      Immer draft, so every case reducer is a function from the previous
      snapshot (and the action payload) to the next one.
    - Product ids and quantities are integers ([Z]); prices and ratings are
      exact rationals ([Q]), and statements about sums of prices hold in
      exact arithmetic.  Integer additions are exact in [Cart]; module
      [CartDoubles] carries out the additions on quantities as the double
      additions they are, which differ from magnitude 2^53 on.
    - JavaScript strings are [string]s; [toLowerCase] folds the ASCII
      letters only.
    - A field of a fetched record that may be absent or ill-typed is a
      [JsValue]. *)

From Stdlib Require Import ZArith QArith String Ascii Bool Lia List.
From Stdlib Require Import Permutation.
Import ListNotations.

Set Implicit Arguments.

(** ** JavaScript values and the runtime functions the slices call *)

(** A property of a fetched record that the code tests with [typeof] before
    use.  [JsUndefined] is a missing property.  A number or a plain object
    behaves like [JsBoolean] for every operation below: its [typeof] is not
    ["string"] and it has neither a [toLowerCase] nor a [localeCompare]
    method. *)
Inductive JsValue : Type :=
| JsUndefined
| JsNull
| JsBoolean (b : bool)
| JsString (s : string).

(** The outcome of an expression that may throw.  The only exception the
    modelled code can raise is a [TypeError] (a property read on
    [undefined] or [null], or a call of a method the value lacks). *)
Inductive Result (A : Type) : Type :=
| Ok (a : A)
| TypeError.
Arguments Ok {A} a.
Arguments TypeError {A}.

Definition bind {A B : Type} (r : Result A) (k : A -> Result B) : Result B :=
  match r with
  | Ok a => k a
  | TypeError => TypeError
  end.

Notation "x <- r ;; k" := (bind r (fun x => k))
  (at level 61, r at next level, right associativity).

(** [String.prototype.localeCompare] is supplied by the host's collation
    data, which is not part of the repository: the slices are parametric in
    it.  Its argument is any value (the runtime converts it to a string). *)
Class Intl : Type := {
  localeCompare : string -> JsValue -> Z
}.

Module JsString.

Definition lowerChar (c : ascii) : ascii :=
  let n := nat_of_ascii c in
  if ((65 <=? n) && (n <=? 90))%nat then ascii_of_nat (n + 32) else c.

(** [s.toLowerCase()], on the ASCII letters. *)
Fixpoint toLowerCase (s : string) : string :=
  match s with
  | EmptyString => EmptyString
  | String c rest => String (lowerChar c) (toLowerCase rest)
  end.

(** [s.includes(searchString)]: [searchString] starts at some position of
    [s]. *)
Fixpoint includes (s searchString : string) : bool :=
  if prefix searchString s then true
  else match s with
       | EmptyString => false
       | String _ rest => includes rest searchString
       end.

(** A string in a condition: every string but the empty one is truthy. *)
Definition truthy (s : string) : bool :=
  match s with
  | EmptyString => false
  | String _ _ => true
  end.

(** The runtime's [ToString] on the values of [JsValue]. *)
Definition toString (v : JsValue) : string :=
  match v with
  | JsUndefined => "undefined"
  | JsNull => "null"
  | JsBoolean true => "true"
  | JsBoolean false => "false"
  | JsString s => s
  end.

(** A collation to run examples with: the order of the code units. *)
Definition codeUnitCompare (s : string) (that : JsValue) : Z :=
  match String.compare s (toString that) with
  | Lt => -1
  | Eq => 0
  | Gt => 1
  end.

(** [codeUnitCompare] packaged as a collation. *)
Definition codeUnitIntl : Intl := {| localeCompare := codeUnitCompare |}.

End JsString.

(** ** Array helpers shared by both slices *)

Module JsArray.

Section Find.
Variable A : Type.
Variable f : A -> bool.

(** [arr.find(f)] hands out a reference to the first element that
    satisfies [f]; an assignment through that reference, written here as
    the field update [g], changes that element of the array and no
    other. *)
Fixpoint assignFirst (g : A -> A) (arr : list A) : list A :=
  match arr with
  | [] => []
  | x :: rest => if f x then g x :: rest else x :: assignFirst g rest
  end.
End Find.

Section Sort.
Variable A : Type.

(** [arr.sort(compareFn)] is a stable sort: [a] comes before [b] when
    [compareFn(a, b) < 0], and elements that compare equal keep their
    order.  The language leaves the sequence of comparator calls to the
    engine; the model inserts from the right, so an element is compared,
    as first argument, with elements that followed it in the input. *)
Fixpoint insert (compareFn : A -> A -> Q) (x : A) (sorted : list A) : list A :=
  match sorted with
  | [] => [x]
  | y :: rest =>
      if Qle_bool (compareFn x y) 0 then x :: y :: rest
      else y :: insert compareFn x rest
  end.

Fixpoint sort (compareFn : A -> A -> Q) (arr : list A) : list A :=
  match arr with
  | [] => []
  | x :: rest => insert compareFn x (sort compareFn rest)
  end.

(** The same sort with a comparator that may throw: the first exception
    aborts the sort. *)
Fixpoint insertR (compareFn : A -> A -> Result Q) (x : A) (sorted : list A)
  : Result (list A) :=
  match sorted with
  | [] => Ok [x]
  | y :: rest =>
      c <- compareFn x y ;;
      if Qle_bool c 0 then Ok (x :: y :: rest)
      else (placed <- insertR compareFn x rest ;; Ok (y :: placed))
  end.

Fixpoint sortR (compareFn : A -> A -> Result Q) (arr : list A)
  : Result (list A) :=
  match arr with
  | [] => Ok []
  | x :: rest => sorted <- sortR compareFn rest ;; insertR compareFn x sorted
  end.

(** [arr.filter(f)] with a callback that may throw: elements are visited
    in order and the first exception aborts the pass. *)
Fixpoint filterR (f : A -> Result bool) (arr : list A) : Result (list A) :=
  match arr with
  | [] => Ok []
  | x :: rest =>
      keep <- f x ;;
      kept <- filterR f rest ;;
      Ok (if keep then x :: kept else kept)
  end.
End Sort.

End JsArray.

(** ** The cart slice *)

Module Cart.
Import JsArray.

(** [CartItem]: one line of the cart. *)
Record CartItem : Type := mkCartItem {
  id : Z;
  title : string;
  price : Q;
  image : string;
  quantity : Z
}.

(** [CartState]: the lines in insertion order and the stored total. *)
Record CartState : Type := mkCartState {
  items : list CartItem;
  total : Q
}.

(** Payload of [addToCart]: the product details without a quantity, as the
    two callers ([ProductItem], [ProductDetail]) build it. *)
Record AddPayload : Type := mkAddPayload {
  payload_id : Z;
  payload_title : string;
  payload_price : Q;
  payload_image : string
}.

(** Payload of [updateQuantity]: [{ id, quantity }]. *)
Record QuantityPayload : Type := mkQuantityPayload {
  target_id : Z;
  new_quantity : Z
}.

Definition initialState : CartState := {| items := []; total := 0 |}.

(** [items.reduce((sum, item) => sum + item.price * item.quantity, 0)] *)
Definition reduceTotal (arr : list CartItem) : Q :=
  fold_left (fun sum item => sum + price item * inject_Z (quantity item)) arr 0.

(** [item.quantity = q], the other fields of the line untouched. *)
Definition setQuantity (q : Z) (item : CartItem) : CartItem :=
  {| id := id item; title := title item; price := price item;
     image := image item; quantity := q |}.

(** [{ ...action.payload, quantity: 1 }] *)
Definition newItem (payload : AddPayload) : CartItem :=
  {| id := payload_id payload; title := payload_title payload;
     price := payload_price payload; image := payload_image payload;
     quantity := 1 |}.

(** [(item) => item.id === wanted] *)
Definition hasId (wanted : Z) (item : CartItem) : bool := (id item =? wanted)%Z.

(** [existingItem.quantity += 1] is the integer increment here.
    [CartDoubles.addToCart] has it as the double addition; the two agree
    while the quantity of the line is below 2^53 in magnitude
    ([CartDoublesFacts.addToCart_in_safe_range]). *)
Definition addToCart (state : CartState) (payload : AddPayload) : CartState :=
  let existingItem := find (hasId (payload_id payload)) (items state) in
  let items' :=
    match existingItem with
    | Some _ =>
        assignFirst (hasId (payload_id payload))
                    (fun item => setQuantity (quantity item + 1) item)
                    (items state)
    | None => items state ++ [newItem payload]
    end in
  {| items := items'; total := reduceTotal items' |}.

Definition removeFromCart (state : CartState) (payload : Z) : CartState :=
  let items' := filter (fun item => negb (id item =? payload)%Z) (items state) in
  {| items := items'; total := reduceTotal items' |}.

Definition updateQuantity (state : CartState) (payload : QuantityPayload)
  : CartState :=
  let item := find (hasId (target_id payload)) (items state) in
  let items' :=
    match item with
    | Some _ =>
        if (1 <=? new_quantity payload)%Z
        then assignFirst (hasId (target_id payload))
                         (setQuantity (new_quantity payload))
                         (items state)
        else items state
    | None => items state
    end in
  {| items := items'; total := reduceTotal items' |}.

Definition clearCart (_ : CartState) : CartState :=
  {| items := []; total := 0 |}.

(** The four action creators the slice exports. *)
Inductive Action : Type :=
| AddToCart (payload : AddPayload)
| RemoveFromCart (payload : Z)
| UpdateQuantity (payload : QuantityPayload)
| ClearCart.

Definition reducer (state : CartState) (action : Action) : CartState :=
  match action with
  | AddToCart payload => addToCart state payload
  | RemoveFromCart payload => removeFromCart state payload
  | UpdateQuantity payload => updateQuantity state payload
  | ClearCart => clearCart state
  end.

(** Every snapshot the store goes through when [actions] are dispatched in
    order, the starting one included. *)
Fixpoint snapshots (state : CartState) (actions : list Action)
  : list CartState :=
  match actions with
  | [] => [state]
  | action :: rest => state :: snapshots (reducer state action) rest
  end.


End Cart.

(** ** The additions on quantities, as doubles *)

Module CartDoubles.
Import JsArray Cart.

(** 2^53: up to this magnitude every integer is a double. *)
Definition TWO_53 : Z := 9007199254740992.

(** The double nearest to the integer [n], a tie going to the even
    significand: the rounding every arithmetic operation on doubles ends
    with.  Beyond 2^53 a double has a 53-bit significand times a power
    of two, [ulp].  The function is the rounding for magnitudes below
    2^1024, where doubles are finite; the statements below stay within
    that range. *)
Definition roundToDouble (n : Z) : Z :=
  let magnitude := Z.abs n in
  if (magnitude <=? TWO_53)%Z then n
  else
    let ulp := (2 ^ (Z.log2 magnitude - 52))%Z in
    let significand := (magnitude / ulp)%Z in
    let rest := (magnitude mod ulp)%Z in
    let rounded :=
      if (2 * rest <? ulp)%Z then significand
      else if (ulp <? 2 * rest)%Z then (significand + 1)%Z
      else if Z.even significand then significand
      else (significand + 1)%Z in
    (Z.sgn n * (rounded * ulp))%Z.

(** [x + y] on two doubles that hold integers. *)
Definition add (x y : Z) : Z := roundToDouble (x + y).

(** [addToCart] with [existingItem.quantity += 1] as the double addition. *)
Definition addToCart (state : CartState) (payload : AddPayload) : CartState :=
  let existingItem := find (hasId (payload_id payload)) (items state) in
  let items' :=
    match existingItem with
    | Some _ =>
        assignFirst (hasId (payload_id payload))
                    (fun item => setQuantity (add (quantity item) 1) item)
                    (items state)
    | None => items state ++ [newItem payload]
    end in
  {| items := items'; total := reduceTotal items' |}.

(** The item count of [Header] and [CartSidebar],
    [items.reduce((sum, item) => sum + item.quantity, 0)], with each
    [sum + item.quantity] as the double addition. *)
Definition totalItems (arr : list CartItem) : Z :=
  fold_left (fun sum item => add sum (quantity item)) arr 0%Z.

End CartDoubles.

(** ** The products slice *)

Module Products.
Import JsString JsArray.

(** [Product]: a record as fetched.  The four text properties are the ones
    a fetched record may lack, so they are [JsValue]s. *)
Record Product : Type := mkProduct {
  id : Z;
  title : JsValue;
  description : JsValue;
  price : Q;
  discountPercentage : Q;
  rating : Q;
  stock : Z;
  brand : JsValue;
  category : JsValue;
  thumbnail : string;
  images : list string
}.

(** [ProductsState]; [error] is a message or [null]. *)
Record ProductsState : Type := mkProductsState {
  products : list Product;
  filteredProducts : list Product;
  searchQuery : string;
  selectedCategory : string;
  sortBy : string;
  loading : bool;
  error : option string;
  categories : list JsValue
}.

Definition initialState : ProductsState :=
  {| products := []; filteredProducts := []; searchQuery := "";
     selectedCategory := ""; sortBy := "name"; loading := false;
     error := None; categories := [] |}.

(** *** The reducer's derivation: [applyFilters] *)

(** [typeof v === "string" ? v.toLowerCase() : ""] *)
Definition safeLowerCase (v : JsValue) : string :=
  match v with
  | JsString s => toLowerCase s
  | _ => ""
  end.

(** [typeof v === "string" ? v : ""] *)
Definition safeString (v : JsValue) : string :=
  match v with
  | JsString s => s
  | _ => ""
  end.

(** [v === s] for a string [s]: no conversion takes place. *)
Definition strictEquals (v : JsValue) (s : string) : bool :=
  match v with
  | JsString t => String.eqb t s
  | _ => false
  end.

(** The callback of the search filter in [applyFilters]. *)
Definition matchesSearch (searchTerm : string) (product : Product) : bool :=
  includes (safeLowerCase (title product)) searchTerm
  || includes (safeLowerCase (description product)) searchTerm
  || includes (safeLowerCase (category product)) searchTerm
  || includes (safeLowerCase (brand product)) searchTerm.

Definition applySearch (searchQuery : string) (filtered : list Product)
  : list Product :=
  if truthy searchQuery
  then let searchTerm := toLowerCase searchQuery in
       filter (matchesSearch searchTerm) filtered
  else filtered.

Definition applyCategory (selectedCategory : string) (filtered : list Product)
  : list Product :=
  if truthy selectedCategory
  then filter (fun product => strictEquals (category product) selectedCategory)
              filtered
  else filtered.

(** The [switch] on [state.sortBy]; it has no [default] branch. *)
Definition applySort `{Intl} (sortBy : string) (filtered : list Product)
  : list Product :=
  if String.eqb sortBy "price-asc" then
    sort (fun a b => price a - price b) filtered
  else if String.eqb sortBy "price-desc" then
    sort (fun a b => price b - price a) filtered
  else if String.eqb sortBy "rating" then
    sort (fun a b => rating b - rating a) filtered
  else if String.eqb sortBy "name" then
    sort (fun a b =>
            let titleA := safeString (title a) in
            let titleB := safeString (title b) in
            inject_Z (localeCompare titleA (JsString titleB)))
         filtered
  else filtered.

Definition setFilteredProducts (state : ProductsState) (filtered : list Product)
  : ProductsState :=
  {| products := products state; filteredProducts := filtered;
     searchQuery := searchQuery state;
     selectedCategory := selectedCategory state; sortBy := sortBy state;
     loading := loading state; error := error state;
     categories := categories state |}.

Definition applyFilters `{Intl} (state : ProductsState) : ProductsState :=
  let filtered := products state in
  let filtered := applySearch (searchQuery state) filtered in
  let filtered := applyCategory (selectedCategory state) filtered in
  let filtered := applySort (sortBy state) filtered in
  setFilteredProducts state filtered.

(** *** The other case reducers *)

Definition setLoading (state : ProductsState) (payload : bool) : ProductsState :=
  {| products := products state; filteredProducts := filteredProducts state;
     searchQuery := searchQuery state;
     selectedCategory := selectedCategory state; sortBy := sortBy state;
     loading := payload; error := error state;
     categories := categories state |}.

Definition JsValue_eqb (v w : JsValue) : bool :=
  match v, w with
  | JsUndefined, JsUndefined => true
  | JsNull, JsNull => true
  | JsBoolean a, JsBoolean b => Bool.eqb a b
  | JsString s, JsString t => String.eqb s t
  | _, _ => false
  end.

(** [[...new Set(values)]]: the distinct values, each at its first
    occurrence. *)
Fixpoint distinct (seen values : list JsValue) : list JsValue :=
  match values with
  | [] => []
  | v :: rest =>
      if existsb (JsValue_eqb v) seen then distinct seen rest
      else v :: distinct (v :: seen) rest
  end.

Definition setProducts `{Intl} (state : ProductsState) (payload : list Product)
  : ProductsState :=
  applyFilters
    {| products := payload; filteredProducts := filteredProducts state;
       searchQuery := searchQuery state;
       selectedCategory := selectedCategory state; sortBy := sortBy state;
       loading := false; error := None;
       categories := distinct [] (map category payload) |}.

Definition setError (state : ProductsState) (payload : string) : ProductsState :=
  {| products := products state; filteredProducts := filteredProducts state;
     searchQuery := searchQuery state;
     selectedCategory := selectedCategory state; sortBy := sortBy state;
     loading := false; error := Some payload;
     categories := categories state |}.

Definition setSearchQuery `{Intl} (state : ProductsState) (payload : string)
  : ProductsState :=
  applyFilters
    {| products := products state; filteredProducts := filteredProducts state;
       searchQuery := payload;
       selectedCategory := selectedCategory state; sortBy := sortBy state;
       loading := loading state; error := error state;
       categories := categories state |}.

Definition setSelectedCategory `{Intl} (state : ProductsState) (payload : string)
  : ProductsState :=
  applyFilters
    {| products := products state; filteredProducts := filteredProducts state;
       searchQuery := searchQuery state;
       selectedCategory := payload; sortBy := sortBy state;
       loading := loading state; error := error state;
       categories := categories state |}.

Definition setSortBy `{Intl} (state : ProductsState) (payload : string)
  : ProductsState :=
  applyFilters
    {| products := products state; filteredProducts := filteredProducts state;
       searchQuery := searchQuery state;
       selectedCategory := selectedCategory state; sortBy := payload;
       loading := loading state; error := error state;
       categories := categories state |}.

(** *** The selector's derivation: [selectFilteredProducts] *)

(** [v.toLowerCase().includes(searchQuery.toLowerCase())]: the method call
    on [v] is not guarded. *)
Definition lowerCaseIncludes (v : JsValue) (searchQuery : string) : Result bool :=
  match v with
  | JsString s => Ok (includes (toLowerCase s) (toLowerCase searchQuery))
  | _ => TypeError
  end.

(** [l || r]: [r] is evaluated only when [l] is [false]. *)
Definition orElse (l r : Result bool) : Result bool :=
  match l with
  | Ok true => Ok true
  | Ok false => r
  | TypeError => TypeError
  end.

(** The callback of the search filter in the selector. *)
Definition selectorMatches (searchQuery : string) (product : Product)
  : Result bool :=
  orElse (orElse (lowerCaseIncludes (title product) searchQuery)
                 (lowerCaseIncludes (description product) searchQuery))
         (lowerCaseIncludes (category product) searchQuery).

Definition selectSearch (searchQuery : string) (filtered : list Product)
  : Result (list Product) :=
  if truthy searchQuery
  then filterR (selectorMatches searchQuery) filtered
  else Ok filtered.

Definition selectCategory (selectedCategory : string) (filtered : list Product)
  : list Product :=
  if truthy selectedCategory && negb (String.eqb selectedCategory "all")
  then filter (fun product => strictEquals (category product) selectedCategory)
              filtered
  else filtered.

(** [a.title.localeCompare(b.title)]: the receiver must be a string, the
    argument is converted by the runtime. *)
Definition titleCompare `{Intl} (a b : Product) : Result Q :=
  match title a with
  | JsString titleA => Ok (inject_Z (localeCompare titleA (title b)))
  | _ => TypeError
  end.

(** The [switch] on [sortBy]; ["name"] shares the [default] branch. *)
Definition selectSort `{Intl} (sortBy : string) (filtered : list Product)
  : Result (list Product) :=
  if String.eqb sortBy "price-asc" then
    Ok (sort (fun a b => price a - price b) filtered)
  else if String.eqb sortBy "price-desc" then
    Ok (sort (fun a b => price b - price a) filtered)
  else if String.eqb sortBy "rating" then
    Ok (sort (fun a b => rating b - rating a) filtered)
  else sortR titleCompare filtered.

(** The result function handed to [createSelector]. *)
Definition resultFunc `{Intl} (products : list Product)
    (searchQuery selectedCategory sortBy : string) : Result (list Product) :=
  filtered <- selectSearch searchQuery products ;;
  let filtered := selectCategory selectedCategory filtered in
  selectSort sortBy filtered.

(** The memoized selector returns what the result function returns on the
    four input selectors' values. *)
Definition selectFilteredProducts `{Intl} (state : ProductsState)
  : Result (list Product) :=
  resultFunc (products state) (searchQuery state) (selectedCategory state)
             (sortBy state).

End Products.

(** * Properties *)

(** ** Facts about the array helpers *)

Module JsArrayFacts.
Import JsArray.

Section FindFacts.
Variable A : Type.
Variable f : A -> bool.

Lemma find_none_forall (arr : list A) :
  find f arr = None <-> (forall x, In x arr -> f x = false).
Proof.
  split.
  - intros H x Hx. exact (find_none f arr H x Hx).
  - induction arr as [|y rest IH]; intros H; simpl; [reflexivity|].
    rewrite (H y (or_introl eq_refl)). apply IH.
    intros x Hx. apply H. now right.
Qed.

(** The element [find] returns splits the array at its first match. *)
Lemma find_some_split (arr : list A) (x : A) :
  find f arr = Some x ->
  exists before after,
    arr = before ++ x :: after /\
    f x = true /\
    (forall y, In y before -> f y = false).
Proof.
  induction arr as [|y rest IH]; simpl; [discriminate|].
  destruct (f y) eqn:Hy.
  - intros [= ->]. exists [], rest. repeat split; auto. intros ? [].
  - intros H. destruct (IH H) as (before & after & -> & Hx & Hb).
    exists (y :: before), after. repeat split; auto.
    intros z [<-|Hz]; auto.
Qed.

Lemma assignFirst_first_match (g : A -> A) (before after : list A) (x : A) :
  f x = true ->
  (forall y, In y before -> f y = false) ->
  assignFirst f g (before ++ x :: after) = before ++ g x :: after.
Proof.
  intros Hx. induction before as [|y before IH]; intros Hb; simpl.
  - now rewrite Hx.
  - rewrite (Hb y (or_introl eq_refl)). f_equal. apply IH.
    intros z Hz. apply Hb. now right.
Qed.

Lemma assignFirst_map (B : Type) (h : A -> B) (g : A -> A) (arr : list A) :
  (forall x, h (g x) = h x) ->
  map h (assignFirst f g arr) = map h arr.
Proof.
  intros Hg. induction arr as [|y rest IH]; simpl; [reflexivity|].
  destruct (f y); simpl; congruence.
Qed.
End FindFacts.

Section SortFacts.
Variable A : Type.

Lemma insert_perm (compareFn : A -> A -> Q) (x : A) (sorted : list A) :
  Permutation (insert compareFn x sorted) (x :: sorted).
Proof.
  induction sorted as [|y rest IH]; simpl; [reflexivity|].
  destruct (Qle_bool (compareFn x y) 0); [reflexivity|].
  rewrite IH. apply perm_swap.
Qed.

(** Sorting rearranges: nothing is dropped, nothing is added. *)
Lemma sort_perm (compareFn : A -> A -> Q) (arr : list A) :
  Permutation (sort compareFn arr) arr.
Proof.
  induction arr as [|x rest IH]; simpl; [reflexivity|].
  rewrite insert_perm. now constructor.
Qed.

Lemma sort_In (compareFn : A -> A -> Q) (arr : list A) (x : A) :
  In x (sort compareFn arr) <-> In x arr.
Proof.
  split; apply Permutation_in; [|symmetry]; apply sort_perm.
Qed.

(** A comparator that never throws on the elements at hand makes the
    throwing sort return what the plain sort returns. *)
Lemma insertR_total (compareR : A -> A -> Result Q) (compareFn : A -> A -> Q)
    (x : A) (sorted : list A) :
  (forall y, In y sorted -> compareR x y = Ok (compareFn x y)) ->
  insertR compareR x sorted = Ok (insert compareFn x sorted).
Proof.
  induction sorted as [|y rest IH]; intros Hc; simpl; [reflexivity|].
  rewrite (Hc y (or_introl eq_refl)). simpl.
  destruct (Qle_bool (compareFn x y) 0); [reflexivity|].
  rewrite IH; [reflexivity|]. intros z Hz. apply Hc. now right.
Qed.

Lemma sortR_total (compareR : A -> A -> Result Q) (compareFn : A -> A -> Q)
    (arr : list A) :
  (forall x y, In x arr -> In y arr -> compareR x y = Ok (compareFn x y)) ->
  sortR compareR arr = Ok (sort compareFn arr).
Proof.
  induction arr as [|x rest IH]; intros Hc; simpl; [reflexivity|].
  rewrite IH by (intros; apply Hc; now right). simpl.
  apply insertR_total. intros y Hy. apply Hc; [now left|].
  right. now apply (sort_In compareFn).
Qed.

Lemma filterR_total (fR : A -> Result bool) (f : A -> bool) (arr : list A) :
  (forall x, In x arr -> fR x = Ok (f x)) ->
  filterR fR arr = Ok (filter f arr).
Proof.
  induction arr as [|x rest IH]; intros Hf; simpl; [reflexivity|].
  rewrite (Hf x (or_introl eq_refl)). simpl.
  rewrite IH by (intros; apply Hf; now right). reflexivity.
Qed.

(** One throwing element aborts the whole pass. *)
Lemma filterR_throws (fR : A -> Result bool) (arr : list A) (x : A) :
  In x arr -> fR x = TypeError -> filterR fR arr = TypeError.
Proof.
  induction arr as [|y rest IH]; intros Hin Hx; [contradiction|].
  simpl. destruct Hin as [->|Hin].
  - now rewrite Hx.
  - destruct (fR y); simpl; [|reflexivity].
    now rewrite (IH Hin Hx).
Qed.
End SortFacts.

End JsArrayFacts.

(** ** The cart reducer *)

Module CartFacts.
Import JsArray JsArrayFacts Cart.

Lemma hasId_true (wanted : Z) (item : CartItem) :
  hasId wanted item = true <-> id item = wanted.
Proof. unfold hasId. apply Z.eqb_eq. Qed.

Lemma hasId_false (wanted : Z) (item : CartItem) :
  hasId wanted item = false <-> id item <> wanted.
Proof. unfold hasId. apply Z.eqb_neq. Qed.




(** C2.  [updateQuantity] with a requested quantity below 1 returns the
    lines it was given: no line is removed, none is clamped to 1, every
    line keeps the quantity it had. *)
Theorem updateQuantity_below_one_keeps_items
    (state : CartState) (payload : QuantityPayload) :
  (new_quantity payload < 1)%Z ->
  items (updateQuantity state payload) = items state.
Proof.
  intros Hq. unfold updateQuantity. simpl.
  destruct (find (hasId (target_id payload)) (items state)); [|reflexivity].
  destruct (1 <=? new_quantity payload)%Z eqn:Hle; [|reflexivity].
  apply Z.leb_le in Hle. lia.
Qed.

(** A payload as [ProductItem] dispatches it. *)
Definition lamp : AddPayload :=
  {| payload_id := 1; payload_title := "Lamp"; payload_price := 20;
     payload_image := "lamp.png" |}.

Definition lampRelabelled : AddPayload :=
  {| payload_id := 1; payload_title := "Desk lamp"; payload_price := 25;
     payload_image := "desk-lamp.png" |}.

Definition twoLamps : CartState := addToCart (addToCart initialState lamp) lamp.

(** The scenario of the specification: two adds of product 1 at price 20,
    then a request for quantity 0. *)
Lemma updateQuantity_below_one_scenario :
  items (updateQuantity twoLamps {| target_id := 1; new_quantity := 0 |})
    = items twoLamps
  /\ items twoLamps = [setQuantity 2 (newItem lamp)]
  /\ total (updateQuantity twoLamps {| target_id := 1; new_quantity := 0 |})
     = 40.
Proof.
  split; [|split; reflexivity].
  apply (updateQuantity_below_one_keeps_items
           twoLamps {| target_id := 1; new_quantity := 0 |}).
  simpl. lia.
Defined.

(** What [addToCart] does to the lines when the id is already there: the
    first line carrying the id gets its quantity raised by one, in place. *)
Lemma addToCart_existing (state : CartState) (payload : AddPayload)
    (existing : CartItem) :
  In existing (items state) ->
  id existing = payload_id payload ->
  exists before first after,
    items state = before ++ first :: after /\
    id first = payload_id payload /\
    (forall other, In other before -> id other <> payload_id payload) /\
    items (addToCart state payload)
      = before ++ setQuantity (quantity first + 1) first :: after.
Proof.
  intros Hin Hid. unfold addToCart. simpl.
  destruct (find (hasId (payload_id payload)) (items state)) as [first|] eqn:Hf.
  - destruct (find_some_split _ _ Hf) as (before & after & Hsplit & Hfirst & Hb).
    exists before, first, after. split; [exact Hsplit|].
    split; [now apply hasId_true|].
    split; [intros other Ho; now apply hasId_false, Hb|].
    rewrite Hsplit.
    rewrite assignFirst_first_match by assumption. reflexivity.
  - exfalso. rewrite find_none_forall in Hf.
    specialize (Hf existing Hin). apply hasId_false in Hf. contradiction.
Qed.

Lemma addToCart_absent (state : CartState) (payload : AddPayload) :
  (forall other, In other (items state) -> id other <> payload_id payload) ->
  items (addToCart state payload) = items state ++ [newItem payload].
Proof.
  intros Habs. unfold addToCart. simpl.
  destruct (find (hasId (payload_id payload)) (items state)) as [first|] eqn:Hf;
    [|reflexivity].
  exfalso. destruct (find_some_split _ _ Hf) as (before & after & Hs & Hfirst & _).
  apply hasId_true in Hfirst. apply (Habs first); [|exact Hfirst].
  rewrite Hs. apply in_or_app. right. now left.
Qed.




End CartFacts.

(** ** Facts about the string helpers *)

Module JsStringFacts.
Import JsString.
Local Open Scope string_scope.

Lemma prefix_spec (searchString s : string) :
  prefix searchString s = true <-> exists after, s = searchString ++ after.
Proof.
  revert s. induction searchString as [|c rest IH]; intros s.
  - split; [intros _; now exists s | intros _; now destruct s].
  - destruct s as [|d s']; simpl;
      [split; [discriminate | intros (? & [=])]|].
    destruct (ascii_dec c d) as [->|Hcd].
    + rewrite IH. split; intros (after & Ha); exists after.
      * now rewrite Ha.
      * now injection Ha.
    + split; [discriminate|]. intros (after & [= Hd _]). congruence.
Qed.

(** [includes] is the substring test. *)
Lemma includes_spec (s searchString : string) :
  includes s searchString = true <->
  exists before after, s = before ++ searchString ++ after.
Proof.
  induction s as [|c rest IH].
  - cbn [includes]. destruct (prefix searchString "") eqn:Hp.
    + split; [intros _|reflexivity].
      apply prefix_spec in Hp. destruct Hp as (after & Ha).
      now exists "", after.
    + split; [discriminate|]. intros (before & after & Hs).
      destruct before; [|discriminate]. simpl in Hs.
      assert (prefix searchString "" = true)
        by (apply prefix_spec; now exists after).
      congruence.
  - cbn [includes]. destruct (prefix searchString (String c rest)) eqn:Hp.
    + split; [intros _|reflexivity].
      apply prefix_spec in Hp. destruct Hp as (after & Ha).
      now exists "", after.
    + rewrite IH. split.
      * intros (before & after & ->). now exists (String c before), after.
      * intros (before & after & Hs). destruct before as [|d before].
        -- simpl in Hs.
           assert (prefix searchString (String c rest) = true)
             by (apply prefix_spec; now exists after).
           congruence.
        -- injection Hs as _ Hrest. now exists before, after.
Qed.

Lemma truthy_spec (s : string) : truthy s = true <-> s <> "".
Proof. destruct s; simpl; split; congruence. Qed.

End JsStringFacts.

(** ** The products reducer and the selector *)

Module ProductsFacts.
Import JsString JsArray JsArrayFacts JsStringFacts Products.
Local Open Scope string_scope.

(** *** Sample catalog *)

Definition sample (i : Z) (t d c b : JsValue) (p r : Q) : Product :=
  {| id := i; title := t; description := d; price := p;
     discountPercentage := 0; rating := r; stock := 1; brand := b;
     category := c; thumbnail := ""; images := [] |}.

Definition redShoe : Product :=
  sample 1 (JsString "Red Shoe") (JsString "A shoe") (JsString "shoes")
         (JsString "Acme") 50 4.

Definition blueHat : Product :=
  sample 2 (JsString "Blue Hat") (JsString "A hat") (JsString "hats")
         (JsString "Zenith") 10 5.

(** A record as the catalog service delivers it for unbranded goods: no
    [brand], and here no [description] either. *)
Definition crate : Product :=
  sample 3 (JsString "Crate") JsUndefined (JsString "storage") JsUndefined 5 3.

(** A state whose list of products was loaded and whose three filter
    parameters were set through the reducer. *)
Definition loaded `{Intl} (catalog : list Product)
    (query selected key : string) : ProductsState :=
  setSortBy
    (setSelectedCategory
       (setSearchQuery (setProducts initialState catalog) query) selected)
    key.

(** A state whose fetch failed. *)
Definition failed : ProductsState := setError initialState "network error".

Section Derivations.
Context {I : Intl}.

(** *** Loading and error flags *)

(** C4, as the code has it.  [setLoading] stores its payload in [loading]
    and touches nothing else: [error] keeps the value it had, so beginning
    a load with [setLoading(true)] sets the loading flag and leaves the
    previous error message in place. *)
Theorem setLoading_sets_only_loading (state : ProductsState) (payload : bool) :
  loading (setLoading state payload) = payload
  /\ error (setLoading state payload) = error state
  /\ products (setLoading state payload) = products state
  /\ filteredProducts (setLoading state payload) = filteredProducts state
  /\ searchQuery (setLoading state payload) = searchQuery state
  /\ selectedCategory (setLoading state payload) = selectedCategory state
  /\ sortBy (setLoading state payload) = sortBy state
  /\ categories (setLoading state payload) = categories state.
Proof. repeat split. Qed.

(** C7.  [setError] stores the message in [error] and resets [loading]
    (the two fields that encode the error status); the product list, the
    stored filtered list, the search text, the selected category, the sort
    key and the categories are the previous ones, and the selector returns
    on the new state what it returned on the old one. *)
Theorem setError_frame (state : ProductsState) (message : string) :
  error (setError state message) = Some message
  /\ loading (setError state message) = false
  /\ products (setError state message) = products state
  /\ filteredProducts (setError state message) = filteredProducts state
  /\ searchQuery (setError state message) = searchQuery state
  /\ selectedCategory (setError state message) = selectedCategory state
  /\ sortBy (setError state message) = sortBy state
  /\ categories (setError state message) = categories state
  /\ selectFilteredProducts (setError state message)
     = selectFilteredProducts state.
Proof. repeat split. Qed.

(** *** Where the two derivations part *)

(** C5 at a failing input.  The catalog holds the two products of the
    specification's scenario with brands "Acme" and "Zenith"; the search
    text "acme" occurs in the brand of the first product only.  The
    reducer keeps that product; the selector, which looks at title,
    description and category, returns the empty list. *)
Theorem selector_search_skips_brand :
  filteredProducts (loaded [redShoe; blueHat] "acme" "" "price-asc") = [redShoe]
  /\ selectFilteredProducts (loaded [redShoe; blueHat] "acme" "" "price-asc")
     = Ok [].
Proof. split; reflexivity. Qed.

(** C6 at a failing input.  The catalog holds a record without
    [description] in front of a well-formed one that matches the search
    text "hat".  The reducer reads the missing field as the empty string
    and keeps the well-formed match; the selector calls [toLowerCase] on
    the missing field and the whole pass ends in a [TypeError]. *)
Theorem selector_throws_on_missing_field :
  filteredProducts (loaded [crate; blueHat] "hat" "" "price-asc") = [blueHat]
  /\ selectFilteredProducts (loaded [crate; blueHat] "hat" "" "price-asc")
     = TypeError.
Proof. split; reflexivity. Qed.

(** C8 at a failing input.  With the selected category "all", which the
    filter bar dispatches for "All Categories", the reducer's category
    step keeps the products whose category is literally "all", here none;
    the selector's category step keeps every product. *)
Theorem reducer_category_step_lacks_all_sentinel :
  applyCategory "all" [redShoe; blueHat] = []
  /\ selectCategory "all" [redShoe; blueHat] = [redShoe; blueHat]
  /\ filteredProducts (loaded [redShoe; blueHat] "" "all" "price-asc") = []
  /\ selectFilteredProducts (loaded [redShoe; blueHat] "" "all" "price-asc")
     = Ok [blueHat; redShoe].
Proof. repeat split. Qed.

(** C9 at failing inputs.  On one and the same assignment of (products,
    search text, category, sort key) the list the reducer stores and the
    list the selector returns differ: for a search text found in a brand
    only, for the category "all", and for a catalog with a record that
    lacks a text field. *)
Theorem reducer_and_selector_differ :
  (filteredProducts (loaded [redShoe; blueHat] "zenith" "" "rating") = [blueHat]
   /\ selectFilteredProducts (loaded [redShoe; blueHat] "zenith" "" "rating")
      = Ok [])
  /\ (filteredProducts (loaded [redShoe; blueHat] "" "all" "rating") = []
      /\ selectFilteredProducts (loaded [redShoe; blueHat] "" "all" "rating")
         = Ok [blueHat; redShoe])
  /\ (filteredProducts (loaded [crate; redShoe] "shoe" "" "rating") = [redShoe]
      /\ selectFilteredProducts (loaded [crate; redShoe] "shoe" "" "rating")
         = TypeError).
Proof. repeat split. Qed.

End Derivations.

(** C4 as the specification states it fails: after a failed fetch,
    [setLoading(true)] leaves the message in [error]; it is not reset to
    [null]. *)
Lemma setLoading_true_keeps_error :
  error (setLoading failed true) = Some "network error"
  /\ ~ (loading (setLoading failed true) = true
        /\ error (setLoading failed true) = None).
Proof.
  split; [reflexivity|]. intros [_ Herr]. discriminate Herr.
Qed.

End ProductsFacts.

(** ** Invariants of the cart lines *)

Module CartInvariants.
Import JsArray JsArrayFacts Cart CartFacts.

(** No two lines share an id, and every quantity is at least 1. *)
Definition linesWellFormed (arr : list CartItem) : Prop :=
  NoDup (map id arr) /\ Forall (fun item => (1 <= quantity item)%Z) arr.

Lemma filter_map_NoDup (keep : CartItem -> bool) (arr : list CartItem) :
  NoDup (map id arr) -> NoDup (map id (filter keep arr)).
Proof.
  induction arr as [|x rest IH]; simpl; intros Hnd; [constructor|].
  inversion Hnd as [|? ? Hx Hrest]; subst.
  destruct (keep x); simpl; [|now apply IH].
  constructor; [|now apply IH].
  intros Hin. apply Hx. apply in_map_iff in Hin.
  destruct Hin as (y & Hy & Hf). apply filter_In in Hf.
  apply in_map_iff. exists y. tauto.
Qed.

Lemma assignFirst_Forall (P : CartItem -> Prop) (f : CartItem -> bool)
    (g : CartItem -> CartItem) (arr : list CartItem) :
  (forall x, P x -> P (g x)) ->
  Forall P arr -> Forall P (assignFirst f g arr).
Proof.
  intros Hg. induction 1 as [|x rest Hx Hrest IH]; simpl; [constructor|].
  destruct (f x); constructor; auto.
Qed.

Lemma addToCart_wellFormed (state : CartState) (payload : AddPayload) :
  linesWellFormed (items state) ->
  linesWellFormed (items (addToCart state payload)).
Proof.
  intros [Hnd Hq]. unfold addToCart. simpl.
  destruct (find (hasId (payload_id payload)) (items state)) eqn:Hf.
  - split.
    + now rewrite assignFirst_map.
    + apply assignFirst_Forall; [|exact Hq]. intros x Hx. simpl. lia.
  - rewrite find_none_forall in Hf. split.
    + rewrite map_app. simpl.
      apply NoDup_incl_NoDup with (l := payload_id payload :: map id (items state)).
      * constructor; [|exact Hnd]. intros Hin. apply in_map_iff in Hin.
        destruct Hin as (y & Hy & Hin). apply Hf in Hin.
        apply hasId_false in Hin. contradiction.
      * rewrite length_app. simpl. lia.
      * intros z Hz. apply in_or_app. simpl in *. tauto.
    + apply Forall_app. split; [exact Hq|].
      constructor; [simpl; lia | constructor].
Qed.

Lemma reducer_wellFormed (state : CartState) (action : Action) :
  linesWellFormed (items state) ->
  linesWellFormed (items (reducer state action)).
Proof.
  destruct action as [payload|payload|payload|]; simpl.
  - apply addToCart_wellFormed.
  - intros [Hnd Hq]. split.
    + now apply filter_map_NoDup.
    + apply Forall_forall. intros x Hx. apply filter_In in Hx.
      rewrite Forall_forall in Hq. now apply Hq.
  - intros [Hnd Hq]. unfold updateQuantity. simpl.
    destruct (find (hasId (target_id payload)) (items state)); [|now split].
    destruct (1 <=? new_quantity payload)%Z eqn:Hle; [|now split].
    apply Z.leb_le in Hle. split.
    + now rewrite assignFirst_map.
    + apply assignFirst_Forall; [|exact Hq]. intros x _. exact Hle.
  - intros _. split; constructor.
Qed.

(** X1.  The data-model invariant of the cart: in every snapshot reached from
    the empty cart no two lines share an id and every quantity is at
    least 1. *)
Theorem lines_wellFormed_in_every_snapshot (actions : list Action) :
  Forall (fun state => linesWellFormed (items state))
         (snapshots initialState actions).
Proof.
  assert (Hgen : forall state, linesWellFormed (items state) ->
                 Forall (fun s => linesWellFormed (items s))
                        (snapshots state actions)).
  { induction actions as [|action rest IH]; intros state Hs; simpl.
    - constructor; [exact Hs | constructor].
    - constructor; [exact Hs|]. apply IH, reducer_wellFormed, Hs. }
  apply Hgen. split; constructor.
Qed.

(** The sum of [price * quantity] over the lines, written as a sum rather
    than as the reducer's left fold. *)
Fixpoint lineSum (arr : list CartItem) : Q :=
  match arr with
  | [] => 0
  | item :: rest => price item * inject_Z (quantity item) + lineSum rest
  end.

Lemma fold_total_from (arr : list CartItem) :
  forall start,
    fold_left (fun sum item => sum + price item * inject_Z (quantity item))
              arr start
    == start + lineSum arr.
Proof.
  induction arr as [|item rest IH]; intros start; simpl.
  - ring.
  - rewrite IH. ring.
Qed.

(** X2.  In exact arithmetic the reducer's fold is that sum. *)
Theorem reduceTotal_is_lineSum (arr : list CartItem) :
  reduceTotal arr == lineSum arr.
Proof.
  unfold reduceTotal. rewrite fold_total_from. ring.
Qed.

End CartInvariants.

(** ** The total of the cart *)

Module CartTotalFacts.
Import Cart CartFacts CartInvariants.


End CartTotalFacts.

(** ** What each derivation does on its own, and when the two agree *)

Module DerivationFacts.
Import JsString JsArray JsArrayFacts JsStringFacts Products ProductsFacts.
Local Open Scope string_scope.

(** [searchText] occurs in [field], letter case ignored; a field that is
    not a string counts as the empty string. *)
Definition containsIgnoringCase (field : JsValue) (searchText : string) : Prop :=
  exists before after,
    toLowerCase (safeString field) = before ++ toLowerCase searchText ++ after.

(** A record with every text property that is not a string replaced by
    the empty string. *)
Definition repaired (product : Product) : Product :=
  {| id := id product;
     title := JsString (safeString (title product));
     description := JsString (safeString (description product));
     price := price product;
     discountPercentage := discountPercentage product;
     rating := rating product; stock := stock product;
     brand := JsString (safeString (brand product));
     category := JsString (safeString (category product));
     thumbnail := thumbnail product; images := images product |}.

(** The text properties the selector dereferences are strings. *)
Definition selectorSafe (product : Product) : Prop :=
  exists t d c,
    title product = JsString t /\
    description product = JsString d /\
    category product = JsString c.

(** Looking at the brand finds nothing the other three properties do not
    find. *)
Definition brandAddsNothing (searchQuery : string) (product : Product) : Prop :=
  includes (safeLowerCase (brand product)) (toLowerCase searchQuery) = true ->
  includes (safeLowerCase (title product)) (toLowerCase searchQuery)
  || includes (safeLowerCase (description product)) (toLowerCase searchQuery)
  || includes (safeLowerCase (category product)) (toLowerCase searchQuery)
  = true.

Definition knownSortKey (key : string) : Prop :=
  key = "price-asc" \/ key = "price-desc" \/ key = "rating" \/ key = "name".

Lemma safeLowerCase_safeString (v : JsValue) :
  safeLowerCase v = toLowerCase (safeString v).
Proof. now destruct v. Qed.

Lemma includes_containsIgnoringCase (field : JsValue) (searchText : string) :
  includes (safeLowerCase field) (toLowerCase searchText) = true <->
  containsIgnoringCase field searchText.
Proof.
  rewrite safeLowerCase_safeString. apply includes_spec.
Qed.

Lemma strictEquals_spec (v : JsValue) (s : string) :
  strictEquals v s = true <-> v = JsString s.
Proof.
  destruct v; simpl; try (split; [discriminate | intros [=]]).
  rewrite String.eqb_eq. split; [now intros -> | now intros [= ->]].
Qed.

Lemma matchesSearch_spec (searchText : string) (product : Product) :
  matchesSearch (toLowerCase searchText) product = true <->
  containsIgnoringCase (title product) searchText
  \/ containsIgnoringCase (description product) searchText
  \/ containsIgnoringCase (category product) searchText
  \/ containsIgnoringCase (brand product) searchText.
Proof.
  unfold matchesSearch. rewrite !orb_true_iff.
  rewrite !includes_containsIgnoringCase. tauto.
Qed.

Section PerCollation.
Context {I : Intl}.

Lemma applySort_In (key : string) (filtered : list Product) (product : Product) :
  In product (applySort key filtered) <-> In product filtered.
Proof.
  unfold applySort.
  repeat match goal with
         | |- context [if ?b then _ else _] => destruct b
         end; try apply sort_In; reflexivity.
Qed.

(** X3.  The reducer's list under a search text and no category: a product of
    the catalog is kept exactly when the text occurs, case ignored, in its
    title, description, category or brand. *)
Theorem reducer_search_keeps_iff (state : ProductsState) (product : Product) :
  searchQuery state <> "" ->
  selectedCategory state = "" ->
  (In product (filteredProducts (applyFilters state)) <->
   In product (products state) /\
   (containsIgnoringCase (title product) (searchQuery state)
    \/ containsIgnoringCase (description product) (searchQuery state)
    \/ containsIgnoringCase (category product) (searchQuery state)
    \/ containsIgnoringCase (brand product) (searchQuery state))).
Proof.
  intros Hq Hc. unfold applyFilters. simpl. rewrite applySort_In, Hc.
  unfold applyCategory, applySearch. simpl.
  apply truthy_spec in Hq. rewrite Hq.
  rewrite filter_In, matchesSearch_spec. reflexivity.
Qed.

(** X4.  The reducer never consults a text property that is not a string: it
    keeps a record exactly when it keeps the repaired record. *)
Theorem reducer_reads_missing_as_empty (searchTerm : string) (product : Product) :
  matchesSearch searchTerm product = matchesSearch searchTerm (repaired product).
Proof.
  unfold matchesSearch, repaired. simpl.
  now destruct (title product), (description product), (category product),
    (brand product).
Qed.

(** X5.  The selector's category step: "" and "all" exclude nothing; any other
    value keeps the products whose category is that very string. *)
Theorem selector_category_step
    (selected : string) (filtered : list Product) (product : Product) :
  (selected <> "" -> selected <> "all" ->
   (In product (selectCategory selected filtered) <->
    In product filtered /\ category product = JsString selected))
  /\ selectCategory "" filtered = filtered
  /\ selectCategory "all" filtered = filtered.
Proof.
  split; [|split; reflexivity].
  intros Hne Hall. unfold selectCategory.
  apply truthy_spec in Hne. apply String.eqb_neq in Hall.
  rewrite Hne, Hall. simpl.
  rewrite filter_In, strictEquals_spec. reflexivity.
Qed.

Lemma selectorMatches_total (searchQuery : string) (product : Product) :
  selectorSafe product ->
  brandAddsNothing searchQuery product ->
  selectorMatches searchQuery product
    = Ok (matchesSearch (toLowerCase searchQuery) product).
Proof.
  intros (t & d & c & Ht & Hd & Hc) Hbrand.
  unfold brandAddsNothing in Hbrand.
  unfold selectorMatches, matchesSearch. rewrite Ht, Hd, Hc in *. simpl in *.
  destruct (includes (toLowerCase t) (toLowerCase searchQuery)),
    (includes (toLowerCase d) (toLowerCase searchQuery)),
    (includes (toLowerCase c) (toLowerCase searchQuery)); simpl in *;
    try reflexivity.
  destruct (includes (safeLowerCase (brand product)) (toLowerCase searchQuery));
    [discriminate (Hbrand eq_refl) | reflexivity].
Qed.

Lemma selectSort_total (key : string) (filtered : list Product) :
  knownSortKey key ->
  Forall selectorSafe filtered ->
  selectSort key filtered = Ok (applySort key filtered).
Proof.
  intros Hkey Hsafe. unfold selectSort, applySort.
  destruct Hkey as [ -> | [ -> | [ -> | -> ] ] ]; simpl; try reflexivity.
  apply sortR_total. intros a b Ha Hb.
  rewrite Forall_forall in Hsafe.
  destruct (Hsafe a Ha) as (ta & _ & _ & Hta & _).
  destruct (Hsafe b Hb) as (tb & _ & _ & Htb & _).
  unfold titleCompare. rewrite Hta, Htb. reflexivity.
Qed.

(** X6.  On a catalog whose records have string titles, descriptions and
    categories, with a search text the brands add nothing to, a selected
    category other than "all" and one of the four sort keys, the selector
    returns, without throwing, the list the reducer stores. *)
Theorem derivations_agree (state : ProductsState) :
  Forall selectorSafe (products state) ->
  Forall (brandAddsNothing (searchQuery state)) (products state) ->
  selectedCategory state <> "all" ->
  knownSortKey (sortBy state) ->
  selectFilteredProducts state = Ok (filteredProducts (applyFilters state)).
Proof.
  intros Hsafe Hbrand Hall Hkey.
  unfold selectFilteredProducts, resultFunc, applyFilters. simpl.
  assert (Hsearch : selectSearch (searchQuery state) (products state)
                    = Ok (applySearch (searchQuery state) (products state))).
  { unfold selectSearch, applySearch.
    destruct (truthy (searchQuery state)); [|reflexivity].
    apply filterR_total. intros x Hx. rewrite Forall_forall in Hsafe, Hbrand.
    apply selectorMatches_total; auto. }
  rewrite Hsearch. simpl.
  assert (Hcat : selectCategory (selectedCategory state)
                   (applySearch (searchQuery state) (products state))
                 = applyCategory (selectedCategory state)
                     (applySearch (searchQuery state) (products state))).
  { unfold selectCategory, applyCategory.
    apply String.eqb_neq in Hall. rewrite Hall, andb_true_r. reflexivity. }
  rewrite Hcat. apply selectSort_total; [exact Hkey|].
  apply Forall_forall. intros x Hx. rewrite Forall_forall in Hsafe.
  apply Hsafe. unfold applyCategory, applySearch in Hx.
  repeat match type of Hx with
         | context [if ?b then _ else _] => destruct b
         end;
    repeat (apply filter_In in Hx; destruct Hx as [Hx _]); exact Hx.
Qed.

End PerCollation.

End DerivationFacts.

(** ** The specification's scenarios, run on the code-unit collation *)

Module Scenarios.
Import JsString JsArray Products ProductsFacts DerivationFacts.
Local Open Scope string_scope.

Definition shoeSearch : ProductsState :=
  @loaded codeUnitIntl [redShoe; blueHat] "shoe" "" "name".

Definition byPrice : ProductsState :=
  @loaded codeUnitIntl [redShoe; blueHat] "" "" "price-asc".

(** Search text "shoe": both derivations show the red shoe only. *)
Example search_shoe :
  filteredProducts shoeSearch = [redShoe]
  /\ @selectFilteredProducts codeUnitIntl shoeSearch = Ok [redShoe].
Proof. split; reflexivity. Qed.

(** No category, ascending price: the hat at 10 before the shoe at 50. *)
Example sort_by_price :
  filteredProducts byPrice = [blueHat; redShoe]
  /\ @selectFilteredProducts codeUnitIntl byPrice = Ok [blueHat; redShoe].
Proof. split; reflexivity. Qed.

(** A failed fetch while a search text is set: the error is recorded and
    the stored list is the one from before. *)
Example load_failed_keeps_list :
  error (setError shoeSearch "network error") = Some "network error"
  /\ filteredProducts (setError shoeSearch "network error") = [redShoe].
Proof. split; reflexivity. Qed.

Lemma reducer_search_keeps_iff_witness :
  In redShoe (filteredProducts (@applyFilters codeUnitIntl shoeSearch)) <->
  In redShoe (products shoeSearch) /\
  (containsIgnoringCase (title redShoe) (searchQuery shoeSearch)
   \/ containsIgnoringCase (description redShoe) (searchQuery shoeSearch)
   \/ containsIgnoringCase (category redShoe) (searchQuery shoeSearch)
   \/ containsIgnoringCase (brand redShoe) (searchQuery shoeSearch)).
Proof.
  apply (@reducer_search_keeps_iff codeUnitIntl shoeSearch redShoe).
  - vm_compute. discriminate.
  - reflexivity.
Defined.

Lemma selector_category_step_witness :
  (In redShoe (selectCategory "shoes" [redShoe; blueHat]) <->
   In redShoe [redShoe; blueHat] /\ category redShoe = JsString "shoes")
  /\ selectCategory "all" [redShoe; blueHat] = [redShoe; blueHat].
Proof.
  destruct (selector_category_step "shoes" [redShoe; blueHat] redShoe)
    as (Hkeep & _ & _).
  destruct (selector_category_step "all" [redShoe; blueHat] redShoe)
    as (_ & _ & Hall).
  split; [|exact Hall].
  apply Hkeep; discriminate.
Defined.

Lemma derivations_agree_witness :
  @selectFilteredProducts codeUnitIntl shoeSearch
  = Ok (filteredProducts (@applyFilters codeUnitIntl shoeSearch)).
Proof.
  apply (@derivations_agree codeUnitIntl shoeSearch).
  - repeat constructor; do 3 eexists; repeat split.
  - repeat constructor; intros Hbrand; vm_compute in Hbrand; discriminate Hbrand.
  - vm_compute. discriminate.
  - right. right. right. reflexivity.
Defined.

End Scenarios.

(** * The components that read and drive the cart *)

(** ** Handlers and derived values of the cart views *)

Module CartViews.
Import JsArray Cart.

(** The badge of [Header] and the title of [CartSidebar]:
    [items.reduce((sum, item) => sum + item.quantity, 0)]. *)
Definition totalItems (arr : list CartItem) : Z :=
  fold_left (fun sum item => (sum + quantity item)%Z) arr 0%Z.

(** [CartItem.handleUpdateQuantity]: the action is dispatched only for a
    quantity of at least 1. *)
Definition handleUpdateQuantity (item : CartItem) (newQuantity : Z)
    (state : CartState) : CartState :=
  if (1 <=? newQuantity)%Z
  then updateQuantity state {| target_id := id item; new_quantity := newQuantity |}
  else state.


(** The plus button of [CartItem]. *)
Definition cartItemPlus (item : CartItem) (state : CartState) : CartState :=
  handleUpdateQuantity item (quantity item + 1) state.

(** [CartItem.handleRemove] *)
Definition handleRemove (item : CartItem) (state : CartState) : CartState :=
  removeFromCart state (id item).


(** The plus button of [CartSidebar]. *)
Definition sidebarPlus (item : CartItem) (state : CartState) : CartState :=
  updateQuantity state
    {| target_id := id item; new_quantity := quantity item + 1 |}.

End CartViews.

(** ** Further properties of the cart reducer *)

Module CartMoreFacts.
Import JsArray JsArrayFacts Cart CartFacts CartInvariants CartViews.

Lemma filter_keeps_all (A : Type) (f : A -> bool) (arr : list A) :
  (forall x, In x arr -> f x = true) -> filter f arr = arr.
Proof.
  induction arr as [|x rest IH]; intros Hall; simpl; [reflexivity|].
  rewrite (Hall x (or_introl eq_refl)). f_equal. apply IH.
  intros y Hy. apply Hall. now right.
Qed.

Lemma find_assignFirst (A : Type) (f : A -> bool) (g : A -> A) (arr : list A) :
  (forall x, f (g x) = f x) ->
  find f (assignFirst f g arr) = option_map g (find f arr).
Proof.
  intros Hg. induction arr as [|x rest IH]; simpl; [reflexivity|].
  destruct (f x) eqn:Hx; simpl.
  - now rewrite Hg, Hx.
  - now rewrite Hx.
Qed.

Lemma assignFirst_twice (A : Type) (f : A -> bool) (g h : A -> A) (arr : list A) :
  (forall x, f (g x) = f x) ->
  assignFirst f h (assignFirst f g arr) = assignFirst f (fun x => h (g x)) arr.
Proof.
  intros Hg. induction arr as [|x rest IH]; simpl; [reflexivity|].
  destruct (f x) eqn:Hx; simpl.
  - now rewrite Hg, Hx.
  - rewrite Hx. now f_equal.
Qed.

Lemma assignFirst_ext (A : Type) (f : A -> bool) (g h : A -> A) (arr : list A) :
  (forall x, g x = h x) -> assignFirst f g arr = assignFirst f h arr.
Proof.
  intros Hgh. induction arr as [|x rest IH]; simpl; [reflexivity|].
  destruct (f x); [now rewrite Hgh | now f_equal].
Qed.

Lemma assignFirst_no_match (A : Type) (f : A -> bool) (g : A -> A) (arr : list A) :
  (forall x, In x arr -> f x = false) -> assignFirst f g arr = arr.
Proof.
  induction arr as [|x rest IH]; intros Hnone; simpl; [reflexivity|].
  rewrite (Hnone x (or_introl eq_refl)). f_equal. apply IH.
  intros y Hy. apply Hnone. now right.
Qed.

(** X7.  Removing a product that is not in the cart is not an error and changes
    no line; removing one that is leaves no line with its id; a line with
    another id stays, with the surviving lines that preceded it before it
    and those that followed it after it; removing twice is removing
    once. *)
Theorem removeFromCart_missing_and_present (state : CartState) (wanted : Z) :
  ((forall other, In other (items state) -> id other <> wanted) ->
   items (removeFromCart state wanted) = items state)
  /\ (forall item, In item (items (removeFromCart state wanted)) ->
                   id item <> wanted)
  /\ (forall before kept after,
        items state = before ++ kept :: after ->
        id kept <> wanted ->
        exists before' after',
          items (removeFromCart state wanted) = before' ++ kept :: after' /\
          (forall x, In x before' <-> In x before /\ id x <> wanted) /\
          (forall x, In x after' <-> In x after /\ id x <> wanted))
  /\ removeFromCart (removeFromCart state wanted) wanted
     = removeFromCart state wanted.
Proof.
  split; [|split; [|split]].
  - intros Habs. simpl. apply filter_keeps_all. intros x Hx.
    apply negb_true_iff, Z.eqb_neq. now apply Habs.
  - intros item Hin. simpl in Hin. apply filter_In in Hin.
    destruct Hin as [_ Hne]. now apply negb_true_iff, Z.eqb_neq in Hne.
  - intros before kept after Hs Hne. simpl. rewrite Hs, filter_app. simpl.
    apply Z.eqb_neq in Hne. rewrite Hne. simpl.
    eexists _, _. split; [reflexivity|].
    split; intros x; rewrite filter_In, negb_true_iff, Z.eqb_neq; reflexivity.
  - unfold removeFromCart. simpl.
    assert (Hff : forall arr : list CartItem,
               filter (fun item => negb (id item =? wanted)%Z)
                      (filter (fun item => negb (id item =? wanted)%Z) arr)
               = filter (fun item => negb (id item =? wanted)%Z) arr).
    { intros arr. apply filter_keeps_all. intros x Hx.
      apply filter_In in Hx. tauto. }
    now rewrite Hff.
Qed.

(** X8.  Adding a product that was not in the cart and removing it again gives
    back the lines, and with them the total, the cart had. *)
Theorem add_then_remove_restores (state : CartState) (payload : AddPayload) :
  (forall other, In other (items state) -> id other <> payload_id payload) ->
  items (removeFromCart (addToCart state payload) (payload_id payload))
    = items state
  /\ total (removeFromCart (addToCart state payload) (payload_id payload))
     = reduceTotal (items state).
Proof.
  intros Habs.
  assert (Hitems : items (removeFromCart (addToCart state payload)
                                         (payload_id payload)) = items state).
  { unfold removeFromCart. cbn [items].
    rewrite (addToCart_absent state payload Habs), filter_app. simpl.
    rewrite Z.eqb_refl. simpl. rewrite app_nil_r.
    apply filter_keeps_all. intros x Hx.
    apply negb_true_iff, Z.eqb_neq. now apply Habs. }
  split; [exact Hitems|].
  change (total (removeFromCart (addToCart state payload) (payload_id payload)))
    with (reduceTotal (items (removeFromCart (addToCart state payload)
                                             (payload_id payload)))).
  now rewrite Hitems.
Qed.

Lemma add_then_remove_restores_witness :
  items (removeFromCart (addToCart twoLamps
           {| payload_id := 7; payload_title := "Desk"; payload_price := 90;
              payload_image := "desk.png" |}) 7) = items twoLamps.
Proof.
  apply (add_then_remove_restores twoLamps
           {| payload_id := 7; payload_title := "Desk"; payload_price := 90;
              payload_image := "desk.png" |}).
  intros other [<-|[]]. simpl. discriminate.
Defined.

(** X9.  [updateQuantity] with a quantity of at least 1: the first line with the
    id comes out with that quantity and with the id, title, price and
    image it had, and no other line changes; an id that is not in the
    cart changes no line; a second update of the same id overrides the
    first. *)
Theorem updateQuantity_sets_the_quantity
    (state : CartState) (payload : QuantityPayload) :
  (1 <= new_quantity payload)%Z ->
  (forall existing,
      In existing (items state) -> id existing = target_id payload ->
      exists before first updated after,
        items state = before ++ first :: after /\
        id first = target_id payload /\
        (forall other, In other before -> id other <> target_id payload) /\
        items (updateQuantity state payload) = before ++ updated :: after /\
        quantity updated = new_quantity payload /\
        id updated = id first /\ title updated = title first /\
        price updated = price first /\ image updated = image first)
  /\ ((forall other, In other (items state) -> id other <> target_id payload) ->
      items (updateQuantity state payload) = items state)
  /\ (forall earlier,
        (1 <= earlier)%Z ->
        updateQuantity
          (updateQuantity state
             {| target_id := target_id payload; new_quantity := earlier |})
          payload
        = updateQuantity state payload).
Proof.
  intros Hq. apply Z.leb_le in Hq. split; [|split].
  - intros existing Hin Hid. unfold updateQuantity. cbn [items].
    destruct (find (hasId (target_id payload)) (items state)) as [first|] eqn:Hf.
    + destruct (find_some_split _ _ Hf) as (before & after & Hs & Hfirst & Hb).
      exists before, first, (setQuantity (new_quantity payload) first), after.
      split; [exact Hs|].
      split; [now apply hasId_true|].
      split; [intros other Ho; now apply hasId_false, Hb|].
      split; [|repeat split].
      rewrite Hq, Hs. now rewrite assignFirst_first_match by assumption.
    + exfalso. rewrite find_none_forall in Hf.
      specialize (Hf existing Hin). apply hasId_false in Hf. contradiction.
  - intros Habs. unfold updateQuantity. cbn [items].
    destruct (find (hasId (target_id payload)) (items state)) eqn:Hf;
      [|reflexivity].
    rewrite Hq. apply assignFirst_no_match. intros x Hx.
    now apply hasId_false, Habs.
  - intros earlier He. apply Z.leb_le in He.
    unfold updateQuantity. cbn [items target_id new_quantity]. rewrite He, Hq.
    destruct (find (hasId (target_id payload)) (items state)) eqn:Hf.
    + rewrite find_assignFirst by reflexivity. rewrite Hf. simpl.
      rewrite assignFirst_twice by reflexivity. reflexivity.
    + rewrite Hf. reflexivity.
Qed.

Lemma updateQuantity_sets_the_quantity_witness :
  map quantity
      (items (updateQuantity twoLamps {| target_id := 1; new_quantity := 5 |}))
    = [5%Z]
  /\ updateQuantity
       (updateQuantity twoLamps {| target_id := 1; new_quantity := 3 |})
       {| target_id := 1; new_quantity := 5 |}
     = updateQuantity twoLamps {| target_id := 1; new_quantity := 5 |}.
Proof.
  assert (Hq : (1 <= 5)%Z) by lia.
  destruct (updateQuantity_sets_the_quantity twoLamps
              {| target_id := 1; new_quantity := 5 |} Hq)
    as (Hline & _ & Hagain).
  split; [|apply (Hagain 3%Z); lia].
  destruct (Hline (setQuantity 2 (newItem lamp)) (or_introl eq_refl) eq_refl)
    as (before & first & updated & after & Hs & _ & _ & Hitems & Hquantity & _).
  rewrite Hitems.
  destruct before as [|b before]; simpl in Hs.
  - injection Hs as _ <-. simpl. now rewrite Hquantity.
  - injection Hs as _ Hs. now destruct before.
Defined.

End CartMoreFacts.

(** ** What the cart views show and dispatch *)

Module CartViewFacts.
Import JsArray JsArrayFacts Cart CartFacts CartInvariants CartViews
       CartMoreFacts.

Lemma lineSum_app (front back : list CartItem) :
  lineSum (front ++ back) == lineSum front + lineSum back.
Proof.
  induction front as [|x rest IH]; simpl; [ring|]. rewrite IH. ring.
Qed.

Lemma reduceTotal_as_sum (arr : list CartItem) : reduceTotal arr == lineSum arr.
Proof. unfold reduceTotal. rewrite fold_total_from. ring. Qed.

Lemma same_id_same_line (arr : list CartItem) (x y : CartItem) :
  NoDup (map id arr) -> In x arr -> In y arr -> id x = id y -> x = y.
Proof.
  induction arr as [|z rest IH]; intros Hnd Hx Hy Hid; [contradiction|].
  simpl in Hnd. inversion Hnd as [|? ? Hz Hrest]; subst.
  destruct Hx as [->|Hx], Hy as [->|Hy]; auto.
  - exfalso. apply Hz. rewrite Hid. now apply in_map.
  - exfalso. apply Hz. rewrite <- Hid. now apply in_map.
Qed.


(** X10.  In a cart without duplicate ids, adding a product that is already
    there raises the total by the price stored in its line, whatever price
    the payload carries; adding a product that is not there raises it by
    the payload's price (exact arithmetic). *)
Theorem addToCart_total_step (state : CartState) (payload : AddPayload) :
  NoDup (map id (items state)) ->
  (forall existing,
      In existing (items state) -> id existing = payload_id payload ->
      total (addToCart state payload)
      == reduceTotal (items state) + price existing)
  /\ ((forall other, In other (items state) -> id other <> payload_id payload) ->
      total (addToCart state payload)
      == reduceTotal (items state) + payload_price payload).
Proof.
  intros Hnd. split.
  - intros existing Hin Hid.
    destruct (addToCart_existing state payload existing Hin Hid)
      as (before & first & after & Hs & Hfirst & _ & Hitems).
    assert (Hsame : first = existing).
    { apply (same_id_same_line (items state)); auto; [|congruence].
      rewrite Hs. apply in_or_app. right. now left. }
    subst first.
    change (total (addToCart state payload))
      with (reduceTotal (items (addToCart state payload))).
    rewrite Hitems, Hs, !reduceTotal_as_sum, !lineSum_app. simpl.
    rewrite inject_Z_plus. ring.
  - intros Habs.
    change (total (addToCart state payload))
      with (reduceTotal (items (addToCart state payload))).
    rewrite (addToCart_absent state payload Habs).
    rewrite !reduceTotal_as_sum, lineSum_app. simpl. ring.
Qed.

Lemma addToCart_total_step_witness :
  total (addToCart twoLamps lampRelabelled) == reduceTotal (items twoLamps) + 20.
Proof.
  assert (Hnd : NoDup (map id (items twoLamps))).
  { simpl. constructor; [intros [] | constructor]. }
  destruct (addToCart_total_step twoLamps lampRelabelled Hnd) as (Hexisting & _).
  exact (Hexisting (setQuantity 2 (newItem lamp)) (or_introl eq_refl) eq_refl).
Defined.

Lemma totalItems_from (arr : list CartItem) :
  forall start,
    fold_left (fun sum item => (sum + quantity item)%Z) arr start
    = (start + totalItems arr)%Z.
Proof.
  unfold totalItems. induction arr as [|x rest IH]; intros start; simpl.
  - lia.
  - rewrite IH, (IH (quantity x)). lia.
Qed.

Lemma totalItems_app (front back : list CartItem) :
  totalItems (front ++ back) = (totalItems front + totalItems back)%Z.
Proof.
  unfold totalItems at 1. rewrite fold_left_app.
  fold (totalItems front). now rewrite totalItems_from.
Qed.

Lemma totalItems_cons (x : CartItem) (rest : list CartItem) :
  totalItems (x :: rest) = (quantity x + totalItems rest)%Z.
Proof.
  change (x :: rest) with ([x] ++ rest). rewrite totalItems_app. reflexivity.
Qed.

(** With exact integer additions, [addToCart] raises the sum of the
    quantities by one. *)
Lemma addToCart_counts_one_more_exact (state : CartState) (payload : AddPayload) :
  totalItems (items (addToCart state payload))
  = (totalItems (items state) + 1)%Z.
Proof.
  unfold addToCart. cbn [items].
  destruct (find (hasId (payload_id payload)) (items state)) as [first|] eqn:Hf.
  - destruct (find_some_split _ _ Hf) as (before & after & Hs & Hfirst & Hb).
    rewrite Hs, assignFirst_first_match by assumption.
    rewrite !totalItems_app, !totalItems_cons. simpl. lia.
  - rewrite totalItems_app. unfold totalItems at 2. simpl. lia.
Qed.

(** X12.  While every line has a quantity of at least 1, the badge counts at
    least one item per line, and it shows 0 only for the empty cart. *)
Theorem totalItems_at_least_lines (arr : list CartItem) :
  Forall (fun item => (1 <= quantity item)%Z) arr ->
  (Z.of_nat (List.length arr) <= totalItems arr)%Z
  /\ (totalItems arr = 0%Z <-> arr = []).
Proof.
  intros Hq.
  assert (Hlen : (Z.of_nat (List.length arr) <= totalItems arr)%Z).
  { induction Hq as [|x rest Hx Hrest IH]; [reflexivity|].
    rewrite totalItems_cons. simpl List.length. lia. }
  split; [exact Hlen|]. split.
  - intros Hzero. destruct arr as [|x rest]; [reflexivity|].
    simpl List.length in Hlen. lia.
  - intros ->. reflexivity.
Qed.

Lemma totalItems_at_least_lines_witness :
  (Z.of_nat (List.length (items twoLamps)) <= totalItems (items twoLamps))%Z.
Proof.
  assert (Hq : Forall (fun item => (1 <= quantity item)%Z) (items twoLamps))
    by (repeat constructor; simpl; lia).
  exact (proj1 (totalItems_at_least_lines Hq)).
Defined.





End CartViewFacts.

(** ** Adding to the cart, with the additions as doubles *)

Module CartDoublesFacts.
Import JsArray JsArrayFacts Cart CartFacts CartInvariants CartViews
       CartMoreFacts CartViewFacts.

Lemma roundToDouble_exact (n : Z) :
  (Z.abs n <= CartDoubles.TWO_53)%Z -> CartDoubles.roundToDouble n = n.
Proof.
  intros Hn. unfold CartDoubles.roundToDouble.
  apply Z.leb_le in Hn. now rewrite Hn.
Qed.

(** Below 2^53 the double addition of 1 is the exact one. *)
Lemma add_one_exact (q : Z) :
  (Z.abs q < CartDoubles.TWO_53)%Z -> CartDoubles.add q 1 = (q + 1)%Z.
Proof.
  intros Hq. unfold CartDoubles.add. apply roundToDouble_exact. lia.
Qed.

Lemma assignFirst_ext_in (A : Type) (f : A -> bool) (g h : A -> A)
    (arr : list A) :
  (forall x, In x arr -> f x = true -> g x = h x) ->
  assignFirst f g arr = assignFirst f h arr.
Proof.
  induction arr as [|x rest IH]; intros Hgh; simpl; [reflexivity|].
  destruct (f x) eqn:Hx.
  - now rewrite (Hgh x (or_introl eq_refl) Hx).
  - f_equal. apply IH. intros y Hy. apply Hgh. now right.
Qed.

(** While the lines with the payload's id have quantities below 2^53 in
    magnitude, the double addition changes nothing: [CartDoubles.addToCart]
    returns what [Cart.addToCart] returns. *)
Lemma addToCart_in_safe_range (state : CartState) (payload : AddPayload) :
  (forall item, In item (items state) -> id item = payload_id payload ->
                (Z.abs (quantity item) < CartDoubles.TWO_53)%Z) ->
  CartDoubles.addToCart state payload = Cart.addToCart state payload.
Proof.
  intros Hsafe. unfold CartDoubles.addToCart, Cart.addToCart.
  destruct (find (hasId (payload_id payload)) (items state)); [|reflexivity].
  rewrite (assignFirst_ext_in (hasId (payload_id payload))
             (fun item => setQuantity (CartDoubles.add (quantity item) 1) item)
             (fun item => setQuantity (quantity item + 1) item));
    [reflexivity|].
  intros x Hx Hid. apply hasId_true in Hid.
  now rewrite add_one_exact by (apply Hsafe; assumption).
Qed.

Lemma double_addToCart_existing (state : CartState) (payload : AddPayload)
    (existing : CartItem) :
  In existing (items state) ->
  id existing = payload_id payload ->
  exists before first after,
    items state = before ++ first :: after /\
    id first = payload_id payload /\
    (forall other, In other before -> id other <> payload_id payload) /\
    items (CartDoubles.addToCart state payload)
      = before ++ setQuantity (CartDoubles.add (quantity first) 1) first
               :: after.
Proof.
  intros Hin Hid. unfold CartDoubles.addToCart. simpl.
  destruct (find (hasId (payload_id payload)) (items state)) as [first|] eqn:Hf.
  - destruct (find_some_split _ _ Hf) as (before & after & Hsplit & Hfirst & Hb).
    exists before, first, after. split; [exact Hsplit|].
    split; [now apply hasId_true|].
    split; [intros other Ho; now apply hasId_false, Hb|].
    rewrite Hsplit.
    rewrite assignFirst_first_match by assumption. reflexivity.
  - exfalso. rewrite find_none_forall in Hf.
    specialize (Hf existing Hin). apply hasId_false in Hf. contradiction.
Qed.

Lemma double_addToCart_absent (state : CartState) (payload : AddPayload) :
  (forall other, In other (items state) -> id other <> payload_id payload) ->
  items (CartDoubles.addToCart state payload)
    = items state ++ [newItem payload].
Proof.
  intros Habs. unfold CartDoubles.addToCart. simpl.
  destruct (find (hasId (payload_id payload)) (items state)) as [first|] eqn:Hf;
    [|reflexivity].
  exfalso. destruct (find_some_split _ _ Hf) as (before & after & Hs & Hfirst & _).
  apply hasId_true in Hfirst. apply (Habs first); [|exact Hfirst].
  rewrite Hs. apply in_or_app. right. now left.
Qed.

(** C3, as the code has it.  [addToCart] returns a snapshot for every
    snapshot and payload.  When a line with the payload's id exists, no
    line is appended: the first such line stays in its place with its id,
    title, price and image, and, if its quantity is below 2^53 in
    magnitude, with its quantity raised by exactly 1.  When no line has
    the id, one line is appended at the end, with the payload's id, title,
    price and image and with quantity 1.  Adding the same id twice to the
    empty cart leaves exactly one line, of quantity 2. *)
Theorem addToCart_increments_below_two_53_or_appends
    (state : CartState) (payload : AddPayload) :
  (forall existing,
      In existing (items state) ->
      id existing = payload_id payload ->
      List.length (items (CartDoubles.addToCart state payload))
      = List.length (items state) /\
      exists before first updated after,
        items state = before ++ first :: after /\
        id first = payload_id payload /\
        (forall other, In other before -> id other <> payload_id payload) /\
        items (CartDoubles.addToCart state payload)
          = before ++ updated :: after /\
        id updated = id first /\ title updated = title first /\
        price updated = price first /\ image updated = image first /\
        ((Z.abs (quantity first) < CartDoubles.TWO_53)%Z ->
         quantity updated = (quantity first + 1)%Z))
  /\ ((forall other, In other (items state) -> id other <> payload_id payload) ->
      exists added,
        items (CartDoubles.addToCart state payload) = items state ++ [added] /\
        id added = payload_id payload /\
        title added = payload_title payload /\
        price added = payload_price payload /\
        image added = payload_image payload /\
        quantity added = 1%Z)
  /\ (forall again,
        payload_id again = payload_id payload ->
        items (CartDoubles.addToCart
                 (CartDoubles.addToCart initialState payload) again)
        = [{| id := payload_id payload; title := payload_title payload;
              price := payload_price payload; image := payload_image payload;
              quantity := 2 |}]).
Proof.
  split; [|split].
  - intros existing Hin Hid.
    destruct (double_addToCart_existing state payload existing Hin Hid)
      as (before & first & after & Hs & Hfirst & Hb & Hitems).
    split.
    + rewrite Hitems, Hs, !length_app. reflexivity.
    + exists before, first,
        (setQuantity (CartDoubles.add (quantity first) 1) first), after.
      repeat (split; [assumption || reflexivity|]).
      intros Hsafe. simpl. now apply add_one_exact.
  - intros Habs. exists (newItem payload).
    split; [now apply double_addToCart_absent | repeat split].
  - intros again Hid.
    change (CartDoubles.addToCart initialState payload)
      with {| items := [newItem payload];
              total := reduceTotal [newItem payload] |}.
    assert (Hhit : hasId (payload_id again) (newItem payload) = true)
      by (apply hasId_true; simpl; congruence).
    unfold CartDoubles.addToCart. cbn [items find assignFirst].
    rewrite Hhit. reflexivity.
Qed.

Lemma addToCart_increments_below_two_53_or_appends_witness :
  map quantity (items (CartDoubles.addToCart twoLamps lamp)) = [3%Z]
  /\ (exists added,
        items (CartDoubles.addToCart initialState lamp) = [added]
        /\ quantity added = 1%Z)
  /\ map quantity
         (items (CartDoubles.addToCart
                   (CartDoubles.addToCart initialState lamp) lampRelabelled))
     = [2%Z].
Proof.
  destruct (addToCart_increments_below_two_53_or_appends twoLamps lamp)
    as (Hexists & _ & _).
  destruct (addToCart_increments_below_two_53_or_appends initialState lamp)
    as (_ & Habsent & Htwice).
  split; [|split].
  - destruct (Hexists (setQuantity 2 (newItem lamp)) (or_introl eq_refl) eq_refl)
      as (_ & before & first & updated & after & Hs & _ & _ & Hitems
          & _ & _ & _ & _ & Hquantity).
    rewrite Hitems. destruct before as [|b before]; simpl in Hs.
    + injection Hs as <- <-. simpl. rewrite Hquantity; [reflexivity|].
      unfold CartDoubles.TWO_53. simpl. lia.
    + injection Hs as _ Hs. now destruct before.
  - destruct Habsent as (added & Hitems & _ & _ & _ & _ & Hone);
      [intros other []|].
    exists added. split; [exact Hitems | exact Hone].
  - rewrite (Htwice lampRelabelled eq_refl). reflexivity.
Defined.

(** A cart whose one line was set to the quantity 2^53. *)
Definition stocked : CartState :=
  updateQuantity twoLamps
    {| target_id := 1; new_quantity := CartDoubles.TWO_53 |}.

(** C3 as the specification states it fails: at the quantity 2^53, which
    [updateQuantity] accepts, [addToCart] leaves the quantity of the
    existing line as it is. *)
Lemma addToCart_at_two_53_keeps_quantity :
  map quantity (items stocked) = [9007199254740992%Z]
  /\ map quantity (items (CartDoubles.addToCart stocked lamp))
     = [9007199254740992%Z]
  /\ map quantity (items (CartDoubles.addToCart stocked lamp))
     <> map (fun q => (q + 1)%Z) (map quantity (items stocked)).
Proof.
  split; [reflexivity|]. split; [reflexivity|]. discriminate.
Qed.

(** *** The item count *)

Lemma totalItems_nonnegative (arr : list CartItem) :
  Forall (fun item => (0 <= quantity item)%Z) arr ->
  (0 <= CartViews.totalItems arr)%Z.
Proof.
  induction 1 as [|x rest Hx Hrest IH]; [reflexivity|].
  rewrite totalItems_cons. lia.
Qed.

Lemma quantity_at_most_total (arr : list CartItem) (item : CartItem) :
  Forall (fun item => (0 <= quantity item)%Z) arr ->
  In item arr ->
  (quantity item <= CartViews.totalItems arr)%Z.
Proof.
  induction 1 as [|x rest Hx Hrest IH]; intros Hin; [contradiction|].
  rewrite totalItems_cons.
  pose proof (totalItems_nonnegative Hrest).
  destruct Hin as [->|Hin]; [lia|]. specialize (IH Hin). lia.
Qed.

(** With quantities that are not negative and add up to at most 2^53,
    every addition of the count is exact. *)
Lemma double_count_exact (arr : list CartItem) :
  Forall (fun item => (0 <= quantity item)%Z) arr ->
  forall sum,
    (0 <= sum)%Z ->
    (sum + CartViews.totalItems arr <= CartDoubles.TWO_53)%Z ->
    fold_left (fun sum item => CartDoubles.add sum (quantity item)) arr sum
    = (sum + CartViews.totalItems arr)%Z.
Proof.
  induction 1 as [|x rest Hx Hrest IH]; intros sum Hsum Hbound; simpl.
  - unfold CartViews.totalItems. simpl. lia.
  - rewrite totalItems_cons in *.
    pose proof (totalItems_nonnegative Hrest).
    unfold CartDoubles.add at 2. rewrite roundToDouble_exact by lia.
    rewrite IH by lia. lia.
Qed.

(** X11.  While the quantities are not negative and add up to less than 2^53,
    so that every addition involved is exact on doubles, the item count of
    the header badge and the sidebar is the sum of the quantities, and
    every [addToCart] raises it by exactly one, whether the product was in
    the cart or not. *)
Theorem addToCart_counts_one_more (state : CartState) (payload : AddPayload) :
  Forall (fun item => (0 <= quantity item)%Z) (items state) ->
  (CartViews.totalItems (items state) < CartDoubles.TWO_53)%Z ->
  CartDoubles.totalItems (items state) = CartViews.totalItems (items state)
  /\ CartDoubles.totalItems (items (CartDoubles.addToCart state payload))
     = (CartDoubles.totalItems (items state) + 1)%Z.
Proof.
  intros Hq Hbound.
  assert (Hbefore : CartDoubles.totalItems (items state)
                    = CartViews.totalItems (items state)).
  { unfold CartDoubles.totalItems. rewrite double_count_exact; auto; lia. }
  split; [exact Hbefore|].
  assert (Hsame : CartDoubles.addToCart state payload
                  = Cart.addToCart state payload).
  { apply addToCart_in_safe_range. intros item Hin _.
    pose proof (@quantity_at_most_total _ item Hq Hin).
    rewrite Forall_forall in Hq. specialize (Hq item Hin). lia. }
  assert (Hafter : Forall (fun item => (0 <= quantity item)%Z)
                          (items (Cart.addToCart state payload))).
  { unfold Cart.addToCart. cbn [items].
    destruct (find (hasId (payload_id payload)) (items state)).
    - apply assignFirst_Forall; [|exact Hq]. intros x Hx. simpl. lia.
    - apply Forall_app. split; [exact Hq|].
      constructor; [simpl; lia | constructor]. }
  rewrite Hsame, Hbefore. unfold CartDoubles.totalItems.
  rewrite double_count_exact; auto; try lia;
    rewrite addToCart_counts_one_more_exact; lia.
Qed.

Lemma addToCart_counts_one_more_witness :
  CartDoubles.totalItems (items (CartDoubles.addToCart twoLamps lampRelabelled))
  = (CartDoubles.totalItems (items twoLamps) + 1)%Z.
Proof.
  assert (Hq : Forall (fun item => (0 <= quantity item)%Z) (items twoLamps))
    by (repeat constructor; simpl; lia).
  assert (Hbound : (CartViews.totalItems (items twoLamps)
                    < CartDoubles.TWO_53)%Z) by reflexivity.
  exact (proj2 (addToCart_counts_one_more twoLamps lampRelabelled Hq Hbound)).
Defined.

End CartDoublesFacts.

(** * The products store as the components drive it *)

From Stdlib Require Import Sorted.

Module ProductsStore.
Import JsString JsArray Products.
Local Open Scope string_scope.

(** The six action creators the slice exports. *)
Inductive Action : Type :=
| SetLoading (payload : bool)
| SetProducts (payload : list Product)
| SetError (payload : string)
| SetSearchQuery (payload : string)
| SetSelectedCategory (payload : string)
| SetSortBy (payload : string).

Definition reducer `{Intl} (state : ProductsState) (action : Action)
  : ProductsState :=
  match action with
  | SetLoading payload => setLoading state payload
  | SetProducts payload => setProducts state payload
  | SetError payload => setError state payload
  | SetSearchQuery payload => setSearchQuery state payload
  | SetSelectedCategory payload => setSelectedCategory state payload
  | SetSortBy payload => setSortBy state payload
  end.

(** Every snapshot of the slice while [actions] are dispatched in order. *)
Fixpoint snapshots `{Intl} (state : ProductsState) (actions : list Action)
  : list ProductsState :=
  match actions with
  | [] => [state]
  | action :: rest => state :: snapshots (reducer state action) rest
  end.

(** The stored list is the one [applyFilters] derives from the stored
    products, search text, category and sort key. *)
Definition filteredInSync `{Intl} (state : ProductsState) : Prop :=
  filteredProducts state = filteredProducts (applyFilters state).

(** What the filter bar and the header can dispatch while a request is in
    flight. *)
Definition isFilterAction (action : Action) : bool :=
  match action with
  | SetSearchQuery _ | SetSelectedCategory _ | SetSortBy _ => true
  | _ => false
  end.

(** How the request of [useProducts] ends: the response body, a failure
    with the message handed to [setError] ("Failed to fetch products" for
    a response that is not ok, the error's own message, or "An error
    occurred"), or an abort by the effect's cleanup. *)
Inductive FetchOutcome : Type :=
| Resolved (data : list Product)
| Rejected (message : string)
| Aborted.

(** [fetchProducts] of [useProducts]: [setLoading(true)] before the
    request; after it, [setProducts] or [setError] unless the request was
    aborted.  [during] are the actions dispatched between the two. *)
Definition fetchProducts `{Intl} (during : list Action) (outcome : FetchOutcome)
    (state : ProductsState) : ProductsState :=
  let started := setLoading state true in
  let current := fold_left reducer during started in
  match outcome with
  | Resolved data => setProducts current data
  | Rejected message => setError current message
  | Aborted => current
  end.

(** The effect of [useProducts]: a request is made only while the store
    holds no product. *)
Definition useProductsEffect `{Intl} (during : list Action)
    (outcome : FetchOutcome) (state : ProductsState) : ProductsState :=
  match products state with
  | [] => fetchProducts during outcome state
  | _ :: _ => state
  end.

(** [ProductFilters.handleClearFilters] *)
Definition handleClearFilters `{Intl} (state : ProductsState) : ProductsState :=
  setSortBy (setSelectedCategory state "all") "name".

End ProductsStore.

(** ** Invariants of the products slice *)

Module ProductsStoreFacts.
Import JsString JsArray JsArrayFacts JsStringFacts Products ProductsStore.
Local Open Scope string_scope.

Lemma JsValue_eqb_spec (v w : JsValue) : JsValue_eqb v w = true <-> v = w.
Proof.
  destruct v, w; simpl; try (split; [discriminate | intros [=]]);
    try (split; reflexivity).
  - rewrite Bool.eqb_true_iff. split; [now intros -> | now intros [= ->]].
  - rewrite String.eqb_eq. split; [now intros -> | now intros [= ->]].
Qed.

Lemma existsb_JsValue_eqb (v : JsValue) (seen : list JsValue) :
  existsb (JsValue_eqb v) seen = true <-> In v seen.
Proof.
  rewrite existsb_exists. split.
  - intros (w & Hw & Heq). apply JsValue_eqb_spec in Heq. now subst.
  - intros Hin. exists v. split; [exact Hin | now apply JsValue_eqb_spec].
Qed.

Lemma distinct_In (values : list JsValue) :
  forall seen v,
    In v (distinct seen values) <-> In v values /\ ~ In v seen.
Proof.
  induction values as [|w rest IH]; intros seen v; simpl; [tauto|].
  destruct (existsb (JsValue_eqb w) seen) eqn:Hw.
  - apply existsb_JsValue_eqb in Hw. rewrite IH. split.
    + tauto.
    + intros [[<-|Hin] Hns]; [contradiction | tauto].
  - assert (Hnw : ~ In w seen).
    { intros Hin. apply existsb_JsValue_eqb in Hin. congruence. }
    simpl. rewrite IH. simpl. split.
    + intros [<-|[Hin Hns]]; [tauto|]. split; [tauto|]. intros H. apply Hns. tauto.
    + intros [[<-|Hin] Hns]; [now left|].
      destruct (JsValue_eqb w v) eqn:Hwv.
      * apply JsValue_eqb_spec in Hwv. now left.
      * right. split; [exact Hin|]. intros [Heq|Hs]; [|contradiction].
        apply JsValue_eqb_spec in Heq. congruence.
Qed.

Lemma distinct_NoDup (values : list JsValue) :
  forall seen, NoDup (distinct seen values).
Proof.
  induction values as [|w rest IH]; intros seen; simpl; [constructor|].
  destruct (existsb (JsValue_eqb w) seen); [apply IH|].
  constructor; [|apply IH].
  rewrite distinct_In. simpl. tauto.
Qed.

(** The distinct values come out in the order of their first
    occurrences. *)
Lemma distinct_first_occurrence (values : list JsValue) :
  forall seen front v back,
    values = (front ++ v :: back)%list ->
    ~ In v front -> ~ In v seen ->
    exists front' back',
      distinct seen values = (front' ++ v :: back')%list /\
      (forall w, In w front' -> In w front).
Proof.
  induction values as [|w rest IH]; intros seen front v back Hs Hnf Hns.
  - destruct front; discriminate.
  - destruct front as [|f front]; simpl in Hs; injection Hs as -> ->.
    + simpl. replace (existsb (JsValue_eqb v) seen) with false.
      * exists [], (distinct (v :: seen) back). split; [reflexivity|].
        intros w [].
      * symmetry. apply not_true_is_false. intros H.
        now apply existsb_JsValue_eqb in H.
    + simpl. assert (Hvf : v <> f) by (intros ->; apply Hnf; now left).
      assert (Hnf' : ~ In v front) by (intros H; apply Hnf; now right).
      destruct (existsb (JsValue_eqb f) seen).
      * destruct (IH seen front v back eq_refl Hnf' Hns) as (f' & b' & He & Hsub).
        exists f', b'. split; [exact He|]. intros w Hw. right. now apply Hsub.
      * destruct (IH (f :: seen) front v back eq_refl Hnf') as (f' & b' & He & Hsub).
        { intros [Heq|Hin]; [congruence | contradiction]. }
        exists (f :: f'), b'. split; [simpl; now rewrite He|].
        intros w [<-|Hw]; [now left | right; now apply Hsub].
Qed.

Section PerCollation.
Context {I : Intl}.

Lemma applyFilters_filteredInSync (state : ProductsState) :
  filteredInSync (applyFilters state).
Proof. reflexivity. Qed.

Lemma reducer_filteredInSync (state : ProductsState) (action : Action) :
  filteredInSync state -> filteredInSync (reducer state action).
Proof.
  intros Hs. destruct action; simpl;
    try apply applyFilters_filteredInSync; exact Hs.
Qed.

(** X14.  Whatever actions are dispatched, in whatever order, the list stored in
    [filteredProducts] is in every snapshot the list [applyFilters] derives
    from the products, search text, category and sort key of that same
    snapshot: no action leaves a stale list behind. *)
Theorem filtered_in_sync_in_every_snapshot (actions : list Action) :
  Forall filteredInSync (snapshots initialState actions).
Proof.
  assert (Hgen : forall state, filteredInSync state ->
                 Forall filteredInSync (snapshots state actions)).
  { induction actions as [|action rest IH]; intros state Hs; simpl.
    - constructor; [exact Hs | constructor].
    - constructor; [exact Hs|]. apply IH, reducer_filteredInSync, Hs. }
  apply Hgen. reflexivity.
Qed.

(** X15.  After [setProducts] the list of categories holds every category value
    of the payload exactly once, and holds them in the order in which they
    first occur in the payload. *)
Theorem setProducts_categories (state : ProductsState) (payload : list Product) :
  NoDup (categories (setProducts state payload))
  /\ (forall v, In v (categories (setProducts state payload)) <->
                exists product, In product payload /\ category product = v)
  /\ (forall front product back,
        payload = (front ++ product :: back)%list ->
        (forall earlier, In earlier front ->
                         category earlier <> category product) ->
        exists front' back',
          categories (setProducts state payload)
          = (front' ++ category product :: back')%list /\
          (forall v, In v front' ->
                     exists earlier, In earlier front /\ category earlier = v)).
Proof.
  change (categories (setProducts state payload))
    with (distinct [] (map category payload)).
  split; [apply distinct_NoDup|]. split.
  - intros v. rewrite distinct_In, in_map_iff. simpl. split.
    + intros [(p & Hc & Hp) _]. now exists p.
    + intros (p & Hp & Hc). split; [now exists p | tauto].
  - intros front product back Hs Hfirst.
    destruct (@distinct_first_occurrence (map category payload) []
                (map category front) (category product) (map category back))
      as (front' & back' & Hd & Hsub).
    + rewrite Hs, map_app. reflexivity.
    + intros Hin. apply in_map_iff in Hin. destruct Hin as (e & He & Hin).
      now apply (Hfirst e Hin).
    + intros [].
    + exists front', back'. split; [exact Hd|].
      intros v Hv. apply Hsub, in_map_iff in Hv.
      destruct Hv as (e & He & Hin). now exists e.
Qed.

Lemma applySearch_incl (query : string) (filtered : list Product) (p : Product) :
  In p (applySearch query filtered) -> In p filtered.
Proof.
  unfold applySearch. destruct (truthy query); [|auto].
  intros Hin. apply filter_In in Hin. tauto.
Qed.

Lemma applyCategory_incl (selected : string) (filtered : list Product)
    (p : Product) :
  In p (applyCategory selected filtered) -> In p filtered.
Proof.
  unfold applyCategory. destruct (truthy selected); [|auto].
  intros Hin. apply filter_In in Hin. tauto.
Qed.

Lemma applySort_perm (key : string) (filtered : list Product) :
  Permutation (applySort key filtered) filtered.
Proof.
  unfold applySort.
  repeat match goal with
         | |- context [if ?b then _ else _] => destruct b
         end; try apply sort_perm; reflexivity.
Qed.

Lemma insertR_perm (A : Type) (compareR : A -> A -> Result Q) (x : A)
    (sorted : list A) :
  forall out, insertR compareR x sorted = Ok out ->
              Permutation out (x :: sorted).
Proof.
  induction sorted as [|y rest IH]; simpl; intros out Hout.
  - injection Hout as <-. reflexivity.
  - destruct (compareR x y) as [c|]; simpl in Hout; [|discriminate].
    destruct (Qle_bool c 0).
    + injection Hout as <-. reflexivity.
    + destruct (insertR compareR x rest) as [placed|]; simpl in Hout;
        [|discriminate].
      injection Hout as <-. rewrite (IH placed eq_refl). apply perm_swap.
Qed.

Lemma sortR_perm (A : Type) (compareR : A -> A -> Result Q) (arr : list A) :
  forall out, sortR compareR arr = Ok out -> Permutation out arr.
Proof.
  induction arr as [|x rest IH]; simpl; intros out Hout.
  - injection Hout as <-. reflexivity.
  - destruct (sortR compareR rest) as [sorted|]; simpl in Hout; [|discriminate].
    rewrite (insertR_perm _ _ _ Hout). constructor. now apply IH.
Qed.

Lemma filterR_incl (A : Type) (fR : A -> Result bool) (arr : list A) :
  forall out x, filterR fR arr = Ok out -> In x out -> In x arr.
Proof.
  induction arr as [|y rest IH]; simpl; intros out x Hout Hin.
  - injection Hout as <-. contradiction.
  - destruct (fR y) as [keep|]; simpl in Hout; [|discriminate].
    destruct (filterR fR rest) as [kept|]; simpl in Hout; [|discriminate].
    injection Hout as <-. destruct keep.
    + destruct Hin as [<-|Hin]; [now left | right; now apply (IH kept)].
    + right. now apply (IH kept).
Qed.

Lemma selectSort_perm (key : string) (filtered out : list Product) :
  selectSort key filtered = Ok out -> Permutation out filtered.
Proof.
  unfold selectSort.
  repeat match goal with
         | |- context [if ?b then _ else _] => destruct b
         end; try (intros [= <-]; apply sort_perm).
  apply sortR_perm.
Qed.

(** X16.  Neither derivation lists anything that is not in [products]; the
    reducer's list is never longer than [products], and with no search
    text and no category it is a rearrangement of all products. *)
Theorem derived_lists_hold_only_products (state : ProductsState) :
  (forall product,
      In product (filteredProducts (applyFilters state)) ->
      In product (products state))
  /\ (forall out product,
        selectFilteredProducts state = Ok out ->
        In product out -> In product (products state))
  /\ (List.length (filteredProducts (applyFilters state))
      <= List.length (products state))%nat
  /\ (searchQuery state = "" -> selectedCategory state = "" ->
      Permutation (filteredProducts (applyFilters state)) (products state)).
Proof.
  split; [|split; [|split]].
  - intros p Hin. unfold applyFilters in Hin. simpl in Hin.
    apply (Permutation_in _ (applySort_perm _ _)) in Hin.
    now apply applyCategory_incl, applySearch_incl in Hin.
  - intros out p Hsel Hin.
    unfold selectFilteredProducts, resultFunc in Hsel.
    destruct (selectSearch (searchQuery state) (products state))
      as [found|] eqn:Hfound; simpl in Hsel; [|discriminate].
    apply (Permutation_in _ (selectSort_perm _ _ Hsel)) in Hin.
    assert (Hin' : In p found).
    { unfold selectCategory in Hin.
      destruct (truthy (selectedCategory state)
                && negb (String.eqb (selectedCategory state) "all"));
        [apply filter_In in Hin; tauto | exact Hin]. }
    unfold selectSearch in Hfound.
    destruct (truthy (searchQuery state)).
    + exact (filterR_incl _ _ p Hfound Hin').
    + injection Hfound as <-. exact Hin'.
  - unfold applyFilters. simpl.
    rewrite (Permutation_length (applySort_perm _ _)).
    unfold applyCategory, applySearch.
    destruct (truthy (selectedCategory state)), (truthy (searchQuery state));
      repeat (etransitivity; [apply filter_length_le|]); auto.
  - intros Hq Hc. unfold applyFilters. simpl. rewrite Hq, Hc.
    apply applySort_perm.
Qed.

(** *** The request of [useProducts] *)

Lemma filter_actions_frame (during : list Action) :
  forallb isFilterAction during = true ->
  forall state,
    loading (fold_left reducer during state) = loading state
    /\ error (fold_left reducer during state) = error state
    /\ products (fold_left reducer during state) = products state.
Proof.
  induction during as [|action rest IH]; intros Hall state; simpl; [auto|].
  simpl in Hall. apply andb_true_iff in Hall. destruct Hall as [Ha Hrest].
  destruct (IH Hrest (reducer state action)) as (Hl & He & Hp).
  rewrite Hl, He, Hp. destruct action; try discriminate; auto.
Qed.

Lemma fold_reducer_filteredInSync (during : list Action) :
  forall state, filteredInSync state ->
                filteredInSync (fold_left reducer during state).
Proof.
  induction during as [|action rest IH]; intros state Hs; simpl; [exact Hs|].
  apply IH, reducer_filteredInSync, Hs.
Qed.

(** Two states with the same four inputs of the derivation. *)
Definition sameInputs (s s' : ProductsState) : Prop :=
  products s = products s' /\ searchQuery s = searchQuery s'
  /\ selectedCategory s = selectedCategory s' /\ sortBy s = sortBy s'.

Lemma reducer_sameInputs (s s' : ProductsState) (action : Action) :
  sameInputs s s' -> sameInputs (reducer s action) (reducer s' action).
Proof.
  intros (Hp & Hq & Hc & Hk).
  destruct action; unfold sameInputs; simpl; auto.
Qed.

Lemma fold_reducer_sameInputs (during : list Action) :
  forall s s', sameInputs s s' ->
               sameInputs (fold_left reducer during s)
                          (fold_left reducer during s').
Proof.
  induction during as [|action rest IH]; intros s s' Hs; simpl; [exact Hs|].
  apply IH, reducer_sameInputs, Hs.
Qed.

(** X17.  However the filter bar and the header are used while the request is
    in flight: a response that arrives leaves the store not loading,
    without error, holding the fetched products and a list derived from
    them under the filters as they stand then; a failure leaves it not
    loading, with the message, and with the products it had; an aborted
    request leaves it loading. *)
Theorem fetchProducts_outcomes (during : list Action) (state : ProductsState) :
  forallb isFilterAction during = true ->
  (forall data,
      loading (fetchProducts during (Resolved data) state) = false
      /\ error (fetchProducts during (Resolved data) state) = None
      /\ products (fetchProducts during (Resolved data) state) = data
      /\ filteredInSync (fetchProducts during (Resolved data) state)
      /\ searchQuery (fetchProducts during (Resolved data) state)
         = searchQuery (fold_left reducer during state)
      /\ selectedCategory (fetchProducts during (Resolved data) state)
         = selectedCategory (fold_left reducer during state)
      /\ sortBy (fetchProducts during (Resolved data) state)
         = sortBy (fold_left reducer during state))
  /\ (forall message,
        loading (fetchProducts during (Rejected message) state) = false
        /\ error (fetchProducts during (Rejected message) state) = Some message
        /\ products (fetchProducts during (Rejected message) state)
           = products state)
  /\ (loading (fetchProducts during Aborted state) = true
      /\ error (fetchProducts during Aborted state) = error state
      /\ products (fetchProducts during Aborted state) = products state).
Proof.
  intros Hduring.
  destruct (filter_actions_frame during Hduring (setLoading state true))
    as (Hl & He & Hp).
  assert (Hsame : sameInputs (fold_left reducer during (setLoading state true))
                             (fold_left reducer during state)).
  { apply fold_reducer_sameInputs. unfold sameInputs. simpl. auto. }
  destruct Hsame as (_ & Hq & Hc & Hk).
  unfold fetchProducts. split; [|split].
  - intros data. repeat split; try assumption.
  - intros message. repeat split. exact Hp.
  - repeat split; assumption.
Qed.

End PerCollation.

Lemma fetchProducts_outcomes_witness :
  loading (@fetchProducts codeUnitIntl [SetSearchQuery "hat"]
             (Resolved [ProductsFacts.redShoe; ProductsFacts.blueHat])
             initialState) = false
  /\ filteredProducts (@fetchProducts codeUnitIntl [SetSearchQuery "hat"]
                         (Resolved [ProductsFacts.redShoe; ProductsFacts.blueHat])
                         initialState) = [ProductsFacts.blueHat].
Proof.
  destruct (@fetchProducts_outcomes codeUnitIntl [SetSearchQuery "hat"]
              initialState eq_refl) as (Hresolved & _ & _).
  split; [|reflexivity].
  exact (proj1 (Hresolved [ProductsFacts.redShoe; ProductsFacts.blueHat])).
Defined.

End ProductsStoreFacts.

(** ** The order of the derived list *)

From Stdlib Require Import Lqa.

Module SortOrderFacts.
Import JsString JsArray JsArrayFacts Products ProductsStore.

Section Comparator.
Variable A : Type.
Variable compareFn : A -> A -> Q.

(** [a] may stand before [b]. *)
Definition notAfter (a b : A) : Prop := compareFn a b <= 0.

Hypothesis compare_total :
  forall a b, ~ compareFn a b <= 0 -> compareFn b a <= 0.
Hypothesis compare_trans :
  forall a b c, compareFn a b <= 0 -> compareFn b c <= 0 -> compareFn a c <= 0.

Lemma insert_sorted (x : A) (sorted : list A) :
  StronglySorted notAfter sorted ->
  StronglySorted notAfter (insert compareFn x sorted).
Proof.
  induction 1 as [|y rest Hrest IH Hy]; simpl.
  - repeat constructor.
  - destruct (Qle_bool (compareFn x y) 0) eqn:Hxy.
    + apply Qle_bool_iff in Hxy. constructor.
      * now constructor.
      * constructor; [exact Hxy|].
        apply Forall_forall. intros z Hz. rewrite Forall_forall in Hy.
        exact (compare_trans Hxy (Hy z Hz)).
    + constructor; [exact IH|].
      apply Forall_forall. intros z Hz.
      apply (Permutation_in _ (insert_perm compareFn x rest)) in Hz.
      destruct Hz as [<-|Hz].
      * apply compare_total. intros Hle. apply Qle_bool_iff in Hle. congruence.
      * rewrite Forall_forall in Hy. now apply Hy.
Qed.

Lemma sort_sorted (arr : list A) :
  StronglySorted notAfter (sort compareFn arr).
Proof.
  induction arr as [|x rest IH]; simpl; [constructor|].
  now apply insert_sorted.
Qed.

(** Elements that the comparator ties keep the order they had. *)
Lemma sort_stable (tied : A -> bool) (arr : list A) :
  (forall a b, tied a = true -> tied b = true -> compareFn a b <= 0) ->
  filter tied (sort compareFn arr) = filter tied arr.
Proof.
  intros Htied.
  assert (Hins : forall x sorted,
             filter tied (insert compareFn x sorted)
             = filter tied (x :: sorted)).
  { intros x sorted. induction sorted as [|y rest IH]; [reflexivity|].
    cbn [insert]. destruct (Qle_bool (compareFn x y) 0) eqn:Hxy;
      [reflexivity|].
    cbn [filter] in *. rewrite IH.
    destruct (tied x) eqn:Hx, (tied y) eqn:Hy; try reflexivity.
    exfalso. specialize (Htied x y Hx Hy). apply Qle_bool_iff in Htied.
    congruence. }
  induction arr as [|x rest IH]; [reflexivity|].
  cbn [sort]. rewrite Hins. cbn [filter]. now rewrite IH.
Qed.
End Comparator.

Lemma StronglySorted_weaken (A : Type) (R R' : A -> A -> Prop) (arr : list A) :
  (forall a b, R a b -> R' a b) ->
  StronglySorted R arr -> StronglySorted R' arr.
Proof.
  intros Hsub. induction 1 as [|x rest Hrest IH Hx]; constructor; auto.
  apply Forall_forall. intros z Hz. rewrite Forall_forall in Hx. auto.
Qed.

Section PerCollation.
Context {I : Intl}.

(** X20.  The three numeric sort keys.  "price-asc" lists the products by rising
    price, "price-desc" by falling price, "rating" by falling rating; in
    each case products with the same price (rating) keep the order they
    had in the filtered list, and the selector orders as the reducer
    does. *)
Theorem numeric_sort_keys_order (filtered : list Product) :
  (StronglySorted (fun a b => price a <= price b)
                  (applySort "price-asc" filtered)
   /\ (forall k, filter (fun p => Qeq_bool (price p) k)
                        (applySort "price-asc" filtered)
                 = filter (fun p => Qeq_bool (price p) k) filtered)
   /\ selectSort "price-asc" filtered = Ok (applySort "price-asc" filtered))
  /\ (StronglySorted (fun a b => price b <= price a)
                     (applySort "price-desc" filtered)
      /\ (forall k, filter (fun p => Qeq_bool (price p) k)
                           (applySort "price-desc" filtered)
                    = filter (fun p => Qeq_bool (price p) k) filtered)
      /\ selectSort "price-desc" filtered
         = Ok (applySort "price-desc" filtered))
  /\ (StronglySorted (fun a b => rating b <= rating a)
                     (applySort "rating" filtered)
      /\ (forall k, filter (fun p => Qeq_bool (rating p) k)
                           (applySort "rating" filtered)
                    = filter (fun p => Qeq_bool (rating p) k) filtered)
      /\ selectSort "rating" filtered = Ok (applySort "rating" filtered)).
Proof.
  assert (Hsorted : forall (cmp : Product -> Product -> Q) (R : Product -> Product -> Prop),
             (forall a b, cmp a b <= 0 <-> R a b) ->
             (forall a b, ~ cmp a b <= 0 -> cmp b a <= 0) ->
             (forall a b c, cmp a b <= 0 -> cmp b c <= 0 -> cmp a c <= 0) ->
             StronglySorted R (sort cmp filtered)).
  { intros cmp R HR Htot Htrans.
    apply (StronglySorted_weaken (R := notAfter cmp));
      [intros a b Hab; now apply HR|].
    exact (@sort_sorted _ cmp Htot Htrans filtered). }
  repeat split.
  - apply Hsorted; intros; lra.
  - intros k. apply sort_stable. intros a b Ha Hb.
    apply Qeq_bool_iff in Ha, Hb. lra.
  - apply Hsorted; intros; lra.
  - intros k. apply sort_stable. intros a b Ha Hb.
    apply Qeq_bool_iff in Ha, Hb. lra.
  - apply Hsorted; intros; lra.
  - intros k. apply sort_stable. intros a b Ha Hb.
    apply Qeq_bool_iff in Ha, Hb. lra.
Qed.

End PerCollation.

End SortOrderFacts.

(** ** The hook's effect and the Clear button *)

Module ProductsFlowFacts.
Import JsString JsArray JsArrayFacts Products ProductsStore ProductsStoreFacts.
Local Open Scope string_scope.

Section PerCollation.
Context {I : Intl}.

(** X18.  The effect run twice in a row, the first request aborted by the
    cleanup (as under [React.StrictMode]), the second one answered with a
    non-empty list: the store ends up not loading, without error, holding
    the answer; and from then on the effect makes no further request,
    whatever happens to it. *)
Theorem useProductsEffect_loads_once
    (first second : list Action) (data : list Product) (state : ProductsState) :
  forallb isFilterAction first = true ->
  forallb isFilterAction second = true ->
  products state = [] ->
  data <> [] ->
  loading (useProductsEffect second (Resolved data)
             (useProductsEffect first Aborted state)) = false
  /\ error (useProductsEffect second (Resolved data)
              (useProductsEffect first Aborted state)) = None
  /\ products (useProductsEffect second (Resolved data)
                 (useProductsEffect first Aborted state)) = data
  /\ (forall later outcome,
        useProductsEffect later outcome
          (useProductsEffect second (Resolved data)
             (useProductsEffect first Aborted state))
        = useProductsEffect second (Resolved data)
            (useProductsEffect first Aborted state)).
Proof.
  intros Hfirst Hsecond Hempty Hdata.
  assert (Haborted : useProductsEffect first Aborted state
                     = fold_left reducer first (setLoading state true)).
  { unfold useProductsEffect. now rewrite Hempty. }
  assert (Hstill : products (useProductsEffect first Aborted state) = []).
  { rewrite Haborted.
    destruct (filter_actions_frame first Hfirst (setLoading state true))
      as (_ & _ & ->). exact Hempty. }
  assert (Hloaded : useProductsEffect second (Resolved data)
                      (useProductsEffect first Aborted state)
                    = fetchProducts second (Resolved data)
                        (useProductsEffect first Aborted state)).
  { unfold useProductsEffect at 1. now rewrite Hstill. }
  rewrite Hloaded. repeat split.
  intros later outcome. unfold useProductsEffect at 1.
  unfold fetchProducts at 1. cbn [setProducts applyFilters products
                                   setFilteredProducts].
  destruct data; [contradiction | reflexivity].
Qed.

(** X19.  The Clear button keeps the products and the search text and selects
    the category "all" and the sort key "name"; when no search text is set
    and every title is a string, the selector then lists all products,
    rearranged. *)
Theorem clear_filters_lists_all (state : ProductsState) :
  searchQuery state = "" ->
  Forall (fun product => exists t, title product = JsString t)
         (products state) ->
  products (handleClearFilters state) = products state
  /\ searchQuery (handleClearFilters state) = searchQuery state
  /\ selectedCategory (handleClearFilters state) = "all"
  /\ sortBy (handleClearFilters state) = "name"
  /\ exists out,
       selectFilteredProducts (handleClearFilters state) = Ok out
       /\ Permutation out (products state).
Proof.
  intros Hq Htitles. repeat split.
  exists (sort (fun a b => inject_Z (localeCompare (safeString (title a))
                                                   (title b)))
               (products state)).
  split; [|apply sort_perm].
  change (selectFilteredProducts (handleClearFilters state))
    with (resultFunc (products state) (searchQuery state) "all" "name").
  unfold resultFunc. rewrite Hq. simpl.
  apply sortR_total. intros a b Ha _.
  rewrite Forall_forall in Htitles. destruct (Htitles a Ha) as (t & Ht).
  unfold titleCompare. now rewrite Ht.
Qed.

End PerCollation.

Lemma useProductsEffect_loads_once_witness :
  loading (@useProductsEffect codeUnitIntl [SetSortBy "rating"]
             (Resolved [ProductsFacts.redShoe])
             (@useProductsEffect codeUnitIntl [] Aborted initialState)) = false.
Proof.
  assert (Hdata : [ProductsFacts.redShoe] <> []) by discriminate.
  exact (proj1 (@useProductsEffect_loads_once codeUnitIntl
                  [] [SetSortBy "rating"] [ProductsFacts.redShoe] initialState
                  eq_refl eq_refl eq_refl Hdata)).
Defined.

Lemma clear_filters_lists_all_witness :
  exists out,
    @selectFilteredProducts codeUnitIntl
      (@handleClearFilters codeUnitIntl
         (@ProductsFacts.loaded codeUnitIntl
            [ProductsFacts.redShoe; ProductsFacts.blueHat] "" "hats" "rating"))
    = Ok out
    /\ Permutation out [ProductsFacts.redShoe; ProductsFacts.blueHat].
Proof.
  apply (@clear_filters_lists_all codeUnitIntl
           (@ProductsFacts.loaded codeUnitIntl
              [ProductsFacts.redShoe; ProductsFacts.blueHat] "" "hats" "rating")).
  - reflexivity.
  - repeat constructor; eexists; reflexivity.
Defined.

End ProductsFlowFacts.

(** * The toast store of [hooks/use-toast.js] *)

From Stdlib Require Import DecimalString DecimalZ.

Module Toast.
Import JsString.
Local Open Scope string_scope.

Definition TOAST_LIMIT : nat := 1.
Definition TOAST_REMOVE_DELAY : Z := 1000000.
Definition MAX_SAFE_INTEGER : Z := 9007199254740991.

(** The callback [toast] installs as [onOpenChange]:
    [(open) => { if (!open) dismiss() }], with [dismiss] bound to the id of
    the toast. *)
Inductive Callback : Type :=
| DismissOnClose (toastId : string).

(** A toast object.  [None] is an absent property; nodes and elements are
    represented by their text. *)
Record ToasterToast : Type := mkToast {
  id : string;
  title : option string;
  description : option string;
  action : option string;
  open : option bool;
  onOpenChange : option Callback
}.

(** The properties a caller passes to [toast] or to [update]. *)
Record ToastProps : Type := mkProps {
  props_title : option string;
  props_description : option string;
  props_action : option string;
  props_open : option bool
}.

Record State : Type := mkState {
  toasts : list ToasterToast
}.

Inductive Action : Type :=
| ADD_TOAST (toast : ToasterToast)
| UPDATE_TOAST (toast : ToasterToast)
| DISMISS_TOAST (toastId : option string)
| REMOVE_TOAST (toastId : option string).

(** The module-level variables: the id counter, the keys of the
    [toastTimeouts] map in insertion order (the timer handles it stores
    are never read), and [memoryState].  The listeners are called with the
    new [memoryState] after every dispatch and do not feed back into
    it. *)
Record World : Type := mkWorld {
  count : Z;
  toastTimeouts : list string;
  memoryState : State
}.

Definition initialWorld : World :=
  {| count := 0; toastTimeouts := []; memoryState := {| toasts := [] |} |}.

(** [n.toString()] for an integer [n]. *)
Definition numberToString (n : Z) : string :=
  NilZero.string_of_int (Z.to_int n).

(** [genId]: the new counter and the id. *)
Definition genId (count : Z) : Z * string :=
  let count' := ((count + 1) mod MAX_SAFE_INTEGER)%Z in
  (count', numberToString count').

(** [toastTimeouts.has(toastId)] *)
Definition hasTimeout (toastId : string) (timeouts : list string) : bool :=
  existsb (String.eqb toastId) timeouts.

(** [addToRemoveQueue]: a timer is set, and its key stored, unless the map
    already has the key. *)
Definition addToRemoveQueue (toastId : string) (timeouts : list string)
  : list string :=
  if hasTimeout toastId timeouts then timeouts
  else (timeouts ++ [toastId])%list.

(** [{ ...t, ...patch }] *)
Definition override {A : Type} (patch old : option A) : option A :=
  match patch with
  | Some v => Some v
  | None => old
  end.

Definition merge (t patch : ToasterToast) : ToasterToast :=
  {| id := id patch;
     title := override (title patch) (title t);
     description := override (description patch) (description t);
     action := override (action patch) (action t);
     open := override (open patch) (open t);
     onOpenChange := override (onOpenChange patch) (onOpenChange t) |}.

(** [{ ...t, open: false }] *)
Definition close (t : ToasterToast) : ToasterToast :=
  {| id := id t; title := title t; description := description t;
     action := action t; open := Some false;
     onOpenChange := onOpenChange t |}.

(** [t.id === toastId || toastId === undefined] *)
Definition dismissed (toastId : option string) (t : ToasterToast) : bool :=
  match toastId with
  | Some wanted => String.eqb (id t) wanted
  | None => true
  end.

(** The reducer, with the [toastTimeouts] map it updates on the side. *)
Definition reducer (state : State) (action : Action) (timeouts : list string)
  : State * list string :=
  match action with
  | ADD_TOAST toast =>
      ({| toasts := firstn TOAST_LIMIT (toast :: toasts state) |}, timeouts)
  | UPDATE_TOAST toast =>
      ({| toasts := map (fun t => if String.eqb (id t) (id toast)
                                  then merge t toast else t)
                        (toasts state) |},
       timeouts)
  | DISMISS_TOAST toastId =>
      let timeouts' :=
        match toastId with
        | Some wanted =>
            if truthy wanted then addToRemoveQueue wanted timeouts
            else fold_left (fun queue toast => addToRemoveQueue (id toast) queue)
                           (toasts state) timeouts
        | None =>
            fold_left (fun queue toast => addToRemoveQueue (id toast) queue)
                      (toasts state) timeouts
        end in
      ({| toasts := map (fun t => if dismissed toastId t then close t else t)
                        (toasts state) |},
       timeouts')
  | REMOVE_TOAST None => ({| toasts := [] |}, timeouts)
  | REMOVE_TOAST (Some wanted) =>
      ({| toasts := filter (fun t => negb (String.eqb (id t) wanted))
                           (toasts state) |},
       timeouts)
  end.

Definition dispatch (action : Action) (world : World) : World :=
  let (state', timeouts') :=
    reducer (memoryState world) action (toastTimeouts world) in
  {| count := count world; toastTimeouts := timeouts';
     memoryState := state' |}.

(** [toast(props)]: the id it returns and the world it leaves. *)
Definition toast (props : ToastProps) (world : World) : string * World :=
  let (count', newId) := genId (count world) in
  let world' := {| count := count'; toastTimeouts := toastTimeouts world;
                   memoryState := memoryState world |} in
  (newId,
   dispatch (ADD_TOAST {| id := newId; title := props_title props;
                          description := props_description props;
                          action := props_action props;
                          open := Some true;
                          onOpenChange := Some (DismissOnClose newId) |})
            world').

(** The [update] function [toast] returns, for the toast [toastId]. *)
Definition update (toastId : string) (props : ToastProps) (world : World)
  : World :=
  dispatch (UPDATE_TOAST {| id := toastId; title := props_title props;
                            description := props_description props;
                            action := props_action props;
                            open := props_open props;
                            onOpenChange := None |})
           world.

(** The [dismiss] function [toast] returns, and the one of [useToast]. *)
Definition dismiss (toastId : option string) (world : World) : World :=
  dispatch (DISMISS_TOAST toastId) world.

(** A toast's [onOpenChange] called with [open]. *)
Definition callOnOpenChange (callback : Callback) (isOpen : bool) (world : World)
  : World :=
  match callback with
  | DismissOnClose toastId =>
      if isOpen then world else dismiss (Some toastId) world
  end.

(** The timer set by [addToRemoveQueue] goes off: the key is deleted and
    [REMOVE_TOAST] dispatched.  Only a timer that was set can go off. *)
Definition timerFires (toastId : string) (world : World) : World :=
  if hasTimeout toastId (toastTimeouts world)
  then dispatch (REMOVE_TOAST (Some toastId))
         {| count := count world;
            toastTimeouts := filter (fun key => negb (String.eqb key toastId))
                                    (toastTimeouts world);
            memoryState := memoryState world |}
  else world.

(** What can happen to the store. *)
Inductive Event : Type :=
| CallToast (props : ToastProps)
| CallUpdate (toastId : string) (props : ToastProps)
| CallDismiss (toastId : option string)
| OpenChange (callback : Callback) (isOpen : bool)
| TimerFires (toastId : string).

Definition step (world : World) (event : Event) : World :=
  match event with
  | CallToast props => snd (toast props world)
  | CallUpdate toastId props => update toastId props world
  | CallDismiss toastId => dismiss toastId world
  | OpenChange callback isOpen => callOnOpenChange callback isOpen world
  | TimerFires toastId => timerFires toastId world
  end.

Definition run (events : list Event) (world : World) : World :=
  fold_left step events world.

End Toast.

(** ** Properties of the toast store *)

Module ToastFacts.
Import JsString Toast.
Local Open Scope string_scope.

(** *** Ids *)

Lemma to_int_not_nil (n : Z) :
  Z.to_int n <> Decimal.Pos Decimal.Nil /\ Z.to_int n <> Decimal.Neg Decimal.Nil.
Proof.
  destruct n as [|p|p]; simpl; split; try discriminate;
    intros [= H]; now apply DecimalPos.Unsigned.to_uint_nonnil in H.
Qed.

Lemma numberToString_inj (n m : Z) :
  numberToString n = numberToString m -> n = m.
Proof.
  unfold numberToString. intros Heq.
  destruct (to_int_not_nil n) as [Hn1 Hn2].
  destruct (to_int_not_nil m) as [Hm1 Hm2].
  apply DecimalZ.to_int_inj.
  pose proof (NilZero.isi (Z.to_int n) Hn1 Hn2) as Hn.
  pose proof (NilZero.isi (Z.to_int m) Hm1 Hm2) as Hm.
  rewrite Heq in Hn. congruence.
Qed.

Lemma numberToString_truthy (n : Z) : truthy (numberToString n) = true.
Proof.
  unfold numberToString.
  destruct (Z.to_int n) as [d|d]; simpl; [|reflexivity].
  destruct d; reflexivity.
Qed.

(** The ids of [n] calls of [genId] in a row. *)
Fixpoint genIds (n : nat) (count : Z) : list string :=
  match n with
  | O => []
  | S k => snd (genId count) :: genIds k (fst (genId count))
  end.

Lemma genIds_counts (n : nat) :
  forall start offset,
    genIds n ((start + offset) mod MAX_SAFE_INTEGER)%Z
    = map (fun i => numberToString
                      ((start + offset + Z.of_nat i) mod MAX_SAFE_INTEGER)%Z)
          (seq 1 n).
Proof.
  induction n as [|n IH]; intros start offset; [reflexivity|].
  cbn [genIds genId fst snd seq map].
  assert (Hnext : (((start + offset) mod MAX_SAFE_INTEGER + 1)
                   mod MAX_SAFE_INTEGER
                   = (start + (offset + 1)) mod MAX_SAFE_INTEGER)%Z).
  { rewrite Zplus_mod_idemp_l. f_equal. lia. }
  rewrite Hnext. f_equal.
  - do 2 f_equal. lia.
  - rewrite IH, <- (seq_shift n 1), map_map. apply map_ext.
    intros i. do 2 f_equal. lia.
Qed.

Lemma map_NoDup_on (A B : Type) (f : A -> B) (arr : list A) :
  (forall x y, In x arr -> In y arr -> f x = f y -> x = y) ->
  NoDup arr -> NoDup (map f arr).
Proof.
  intros Hinj Hnd. induction Hnd as [|x rest Hx Hrest IH]; simpl;
    constructor.
  - intros Hin. apply in_map_iff in Hin. destruct Hin as (y & Hy & Hin).
    assert (y = x) by (apply Hinj; simpl; auto). subst. contradiction.
  - apply IH. intros a b Ha Hb. apply Hinj; now right.
Qed.

(** X22.  As long as [genId] is called at most [MAX_SAFE_INTEGER] times in a
    row, no id comes out twice. *)
Theorem genId_ids_distinct (n : nat) (count : Z) :
  (0 <= count < MAX_SAFE_INTEGER)%Z ->
  (Z.of_nat n <= MAX_SAFE_INTEGER)%Z ->
  NoDup (genIds n count).
Proof.
  intros Hcount Hn.
  replace count with ((count + 0) mod MAX_SAFE_INTEGER)%Z
    by (rewrite Z.add_0_r; now apply Z.mod_small).
  rewrite genIds_counts. apply map_NoDup_on; [|apply seq_NoDup].
  intros i j Hi Hj Heq. apply numberToString_inj in Heq.
  apply in_seq in Hi, Hj.
  assert (HM : (0 < MAX_SAFE_INTEGER)%Z) by reflexivity.
  pose proof (Z.div_mod (count + 0 + Z.of_nat i) MAX_SAFE_INTEGER) as Di.
  pose proof (Z.div_mod (count + 0 + Z.of_nat j) MAX_SAFE_INTEGER) as Dj.
  rewrite Heq in Di.
  assert (Hq : ((count + 0 + Z.of_nat i) / MAX_SAFE_INTEGER
                = (count + 0 + Z.of_nat j) / MAX_SAFE_INTEGER)%Z) by nia.
  rewrite Hq in Di. lia.
Qed.

Lemma genId_ids_distinct_witness : NoDup (genIds 3 9007199254740989).
Proof.
  apply (@genId_ids_distinct 3 9007199254740989); unfold MAX_SAFE_INTEGER; lia.
Defined.

(** *** The list of toasts and the removal queue *)

Lemma hasTimeout_spec (toastId : string) (timeouts : list string) :
  hasTimeout toastId timeouts = true <-> In toastId timeouts.
Proof.
  unfold hasTimeout. rewrite existsb_exists. split.
  - intros (key & Hin & Heq). apply String.eqb_eq in Heq. now subst.
  - intros Hin. exists toastId. split; [exact Hin | apply String.eqb_refl].
Qed.

Lemma addToRemoveQueue_NoDup (toastId : string) (timeouts : list string) :
  NoDup timeouts -> NoDup (addToRemoveQueue toastId timeouts).
Proof.
  intros Hnd. unfold addToRemoveQueue.
  destruct (hasTimeout toastId timeouts) eqn:Hhas; [exact Hnd|].
  apply NoDup_incl_NoDup with (l := toastId :: timeouts).
  - constructor; [|exact Hnd]. intros Hin.
    apply hasTimeout_spec in Hin. congruence.
  - rewrite length_app. simpl. lia.
  - intros key Hkey. apply in_or_app. simpl in *. tauto.
Qed.

Lemma addToRemoveQueue_In (toastId key : string) (timeouts : list string) :
  In key (addToRemoveQueue toastId timeouts) <->
  key = toastId \/ In key timeouts.
Proof.
  unfold addToRemoveQueue.
  destruct (hasTimeout toastId timeouts) eqn:Hhas.
  - apply hasTimeout_spec in Hhas. split; [tauto|].
    intros [->|Hin]; assumption.
  - rewrite in_app_iff. simpl. split; intros H; intuition.
Qed.

Lemma queue_all_NoDup (shown : list ToasterToast) :
  forall timeouts,
    NoDup timeouts ->
    NoDup (fold_left (fun queue t => addToRemoveQueue (id t) queue)
                     shown timeouts).
Proof.
  induction shown as [|t rest IH]; intros timeouts Hnd; simpl; [exact Hnd|].
  apply IH, addToRemoveQueue_NoDup, Hnd.
Qed.

(** What every reachable world satisfies. *)
Definition wellFormed (world : World) : Prop :=
  (List.length (toasts (memoryState world)) <= TOAST_LIMIT)%nat
  /\ NoDup (toastTimeouts world)
  /\ (0 <= count world < MAX_SAFE_INTEGER)%Z.

Lemma dispatch_wellFormed (action : Action) (world : World) :
  wellFormed world -> wellFormed (dispatch action world).
Proof.
  intros (Hlen & Hnd & Hcount). unfold wellFormed, dispatch.
  destruct action as [t|t|toastId|[wanted|]]; simpl.
  - repeat split; try assumption; try apply Hcount.
    unfold TOAST_LIMIT. lia.
  - rewrite length_map. repeat split; try assumption; apply Hcount.
  - rewrite length_map. repeat split; try assumption; try apply Hcount.
    destruct toastId as [wanted|].
    + destruct (truthy wanted);
        [now apply addToRemoveQueue_NoDup | now apply queue_all_NoDup].
    + now apply queue_all_NoDup.
  - repeat split; try assumption; try apply Hcount.
    etransitivity; [apply filter_length_le | exact Hlen].
  - repeat split; try assumption; try apply Hcount. apply Nat.le_0_l.
Qed.

Lemma step_wellFormed (world : World) (event : Event) :
  wellFormed world -> wellFormed (step world event).
Proof.
  intros Hw. destruct event as [props|toastId props|toastId|callback isOpen|toastId];
    simpl.
  - unfold toast, genId. cbn [snd]. apply dispatch_wellFormed.
    destruct Hw as (Hlen & Hnd & Hcount). repeat split; simpl; try assumption;
      apply Z.mod_pos_bound; reflexivity.
  - now apply dispatch_wellFormed.
  - now apply dispatch_wellFormed.
  - destruct callback as [toastId]. simpl.
    destruct isOpen; [exact Hw | now apply dispatch_wellFormed].
  - unfold timerFires.
    destruct (hasTimeout toastId (toastTimeouts world)); [|exact Hw].
    apply dispatch_wellFormed. destruct Hw as (Hlen & Hnd & Hcount).
    repeat split; simpl; try assumption; try apply Hcount.
    now apply NoDup_filter.
Qed.

(** X23.  Whatever is called and whichever timers go off, in whatever order:
    the store never shows more than [TOAST_LIMIT] toasts, and
    [toastTimeouts] never holds two timers for one toast. *)
Theorem toast_limit_and_single_timers (events : list Event) :
  (List.length (toasts (memoryState (run events initialWorld))) <= TOAST_LIMIT)%nat
  /\ NoDup (toastTimeouts (run events initialWorld)).
Proof.
  assert (Hgen : forall world, wellFormed world -> wellFormed (run events world)).
  { unfold run. induction events as [|event rest IH]; intros world Hw; simpl;
      [exact Hw|]. apply IH, step_wellFormed, Hw. }
  assert (Hinit : wellFormed initialWorld).
  { unfold wellFormed, MAX_SAFE_INTEGER. simpl.
    repeat split; try lia. constructor. }
  destruct (Hgen initialWorld Hinit) as (Hlen & Hnd & _).
  split; assumption.
Qed.

(** *** The life of a toast *)

(** The toast object [toast] puts into the store. *)
Definition shownToast (toastId : string) (props : ToastProps) : ToasterToast :=
  {| id := toastId; title := props_title props;
     description := props_description props; action := props_action props;
     open := Some true; onOpenChange := Some (DismissOnClose toastId) |}.

Lemma toast_result (props : ToastProps) (world : World) (toastId : string)
    (shown : World) :
  toast props world = (toastId, shown) ->
  toastId = numberToString ((count world + 1) mod MAX_SAFE_INTEGER)%Z
  /\ count shown = ((count world + 1) mod MAX_SAFE_INTEGER)%Z
  /\ toastTimeouts shown = toastTimeouts world
  /\ memoryState shown = {| toasts := [shownToast toastId props] |}.
Proof.
  unfold toast, genId, dispatch. simpl. intros [= <- <-]. simpl.
  repeat split.
Qed.

Lemma dismiss_shown (props : ToastProps) (world : World) (toastId : string)
    (shown : World) :
  toast props world = (toastId, shown) ->
  truthy toastId = true
  /\ dismiss (Some toastId) shown
     = {| count := count shown;
          toastTimeouts := addToRemoveQueue toastId (toastTimeouts shown);
          memoryState := {| toasts := [close (shownToast toastId props)] |} |}
  /\ In toastId (addToRemoveQueue toastId (toastTimeouts shown)).
Proof.
  intros Htoast.
  destruct (toast_result Htoast) as (Hid & _ & Htimeouts & Hstate).
  assert (Htruthy : truthy toastId = true)
    by (rewrite Hid; apply numberToString_truthy).
  split; [exact Htruthy|]. split.
  - unfold dismiss, dispatch. simpl. rewrite Htruthy, Hstate. simpl.
    now rewrite String.eqb_refl.
  - apply addToRemoveQueue_In. now left.
Qed.


Lemma next_count_differs (c : Z) :
  (0 <= c < MAX_SAFE_INTEGER)%Z -> ((c + 1) mod MAX_SAFE_INTEGER <> c)%Z.
Proof.
  intros Hc. destruct (Z.eq_dec (c + 1) MAX_SAFE_INTEGER) as [Heq|Hne].
  - rewrite Heq, Z_mod_same_full. unfold MAX_SAFE_INTEGER in *. lia.
  - rewrite Z.mod_small; lia.
Qed.

(** X25.  A second toast takes the place of the first, under a different id;
    the removal timer that was set for the first does not touch it when
    it goes off. *)
Theorem replacing_toast_survives_old_timer (first second : ToastProps)
    (world : World) (firstId secondId : string) (shown replaced : World) :
  toast first world = (firstId, shown) ->
  toast second (dismiss (Some firstId) shown) = (secondId, replaced) ->
  firstId <> secondId
  /\ toasts (memoryState replaced) = [shownToast secondId second]
  /\ toasts (memoryState (timerFires firstId replaced))
     = [shownToast secondId second]
  /\ ~ In firstId (toastTimeouts (timerFires firstId replaced)).
Proof.
  intros Hfirst Hsecond.
  destruct (toast_result Hfirst) as (Hid1 & Hc1 & Ht1 & Hs1).
  destruct (toast_result Hsecond) as (Hid2 & Hc2 & Ht2 & Hs2).
  assert (Hcount : count (dismiss (Some firstId) shown) = count shown)
    by (unfold dismiss, dispatch; now destruct (reducer _ _ _)).
  assert (Hne : firstId <> secondId).
  { rewrite Hid1, Hid2, Hcount, Hc1. intros Heq.
    apply numberToString_inj in Heq. symmetry in Heq.
    apply next_count_differs in Heq; [exact Heq|].
    apply Z.mod_pos_bound. reflexivity. }
  split; [exact Hne|]. split; [now rewrite Hs2|].
  assert (Hqueued : hasTimeout firstId (toastTimeouts replaced) = true).
  { rewrite Ht2. apply hasTimeout_spec.
    destruct (dismiss_shown Hfirst) as (_ & -> & Hin). exact Hin. }
  unfold timerFires. rewrite Hqueued. unfold dispatch. simpl. rewrite Hs2.
  simpl. split.
  - replace (String.eqb secondId firstId) with false; [reflexivity|].
    symmetry. apply String.eqb_neq. congruence.
  - intros Hin. apply filter_In in Hin. destruct Hin as [_ Hkey].
    now rewrite String.eqb_refl in Hkey.
Qed.

(** The toast [ProductItem] shows after an add. *)
Definition addedToCart : ToastProps :=
  {| props_title := Some "Added to cart!";
     props_description := Some "Lamp has been added to your cart.";
     props_action := None; props_open := None |}.


Lemma replacing_toast_survives_old_timer_witness :
  toasts (memoryState
            (timerFires "1"
               (snd (toast addedToCart
                       (dismiss (Some "1")
                          (snd (toast addedToCart initialWorld)))))))
  = [shownToast "2" addedToCart].
Proof.
  assert (Hfirst : toast addedToCart initialWorld
                   = ("1", snd (toast addedToCart initialWorld)))
    by reflexivity.
  assert (Hsecond :
            toast addedToCart
              (dismiss (Some "1") (snd (toast addedToCart initialWorld)))
            = ("2", snd (toast addedToCart
                           (dismiss (Some "1")
                              (snd (toast addedToCart initialWorld))))))
    by reflexivity.
  destruct (replacing_toast_survives_old_timer Hfirst Hsecond)
    as (_ & _ & Hkept & _).
  exact Hkept.
Defined.

(** X26.  [update] rewrites the toasts with the given id and no other: the list
    keeps its length and its ids, the removal queue is untouched, a toast
    with another id is left as it is, and a toast is not reopened unless
    the new properties say so.  With no toast of that id, nothing
    changes. *)
Theorem update_touches_matching_only (toastId : string) (props : ToastProps)
    (world : World) :
  map id (toasts (memoryState (update toastId props world)))
    = map id (toasts (memoryState world))
  /\ toastTimeouts (update toastId props world) = toastTimeouts world
  /\ (forall t, In t (toasts (memoryState world)) -> id t <> toastId ->
                In t (toasts (memoryState (update toastId props world))))
  /\ (props_open props = None ->
      map open (toasts (memoryState (update toastId props world)))
      = map open (toasts (memoryState world)))
  /\ ((forall t, In t (toasts (memoryState world)) -> id t <> toastId) ->
      update toastId props world = world).
Proof.
  unfold update, dispatch. simpl. split; [|split; [|split; [|split]]].
  - rewrite map_map. apply map_ext_in. intros t _.
    destruct (String.eqb (id t) toastId) eqn:Heq; [|reflexivity].
    simpl. symmetry. now apply String.eqb_eq.
  - reflexivity.
  - intros t Hin Hne. apply in_map_iff. exists t. split; [|exact Hin].
    apply String.eqb_neq in Hne. now rewrite Hne.
  - intros Hopen. rewrite map_map. apply map_ext_in. intros t _.
    destruct (String.eqb (id t) toastId); [|reflexivity].
    simpl. now rewrite Hopen.
  - intros Hnone.
    assert (Hsame : map (fun t => if String.eqb (id t) toastId
                                  then merge t {| id := toastId;
                                                  title := props_title props;
                                                  description := props_description props;
                                                  action := props_action props;
                                                  open := props_open props;
                                                  onOpenChange := None |}
                                  else t)
                        (toasts (memoryState world))
                    = toasts (memoryState world)).
    { rewrite <- (map_id (toasts (memoryState world))) at 2.
      apply map_ext_in. intros t Hin.
      specialize (Hnone t Hin). apply String.eqb_neq in Hnone.
      now rewrite Hnone. }
    rewrite Hsame. destruct world as [c q [shown]]. reflexivity.
Qed.

End ToastFacts.

(** * The window of [components/virtual-list.jsx] *)

From Stdlib Require Import Qround.

Module VirtualList.

(** [arr.slice(start, end)]: a negative bound counts from the end of the
    array, and a bound beyond the array is cut to it. *)
Definition slice {A : Type} (arr : list A) (start finish : Z) : list A :=
  let len := Z.of_nat (List.length arr) in
  let from := if (start <? 0)%Z then Z.max (len + start) 0 else Z.min start len in
  let to := if (finish <? 0)%Z then Z.max (len + finish) 0 else Z.min finish len in
  firstn (Z.to_nat (to - from)) (skipn (Z.to_nat from) arr).

(** [arr.map((item, index) => f(item, index))], the index counted from
    [index]. *)
Fixpoint mapFrom {A B : Type} (f : A -> Z -> B) (index : Z) (arr : list A)
  : list B :=
  match arr with
  | [] => []
  | item :: rest => f item index :: mapFrom f (index + 1) rest
  end.

(** The props and the scroll position the window is computed from; the
    heights and the scroll position are numbers, [itemHeight] a positive
    one. *)
Record Geometry : Type := mkGeometry {
  itemHeight : Q;
  containerHeight : Q;
  scrollTop : Q;
  overscan : Z
}.

(** [Math.floor(scrollTop / itemHeight)] *)
Definition visibleStart (g : Geometry) : Z :=
  Qfloor (scrollTop g / itemHeight g).

(** [Math.min(visibleStart + Math.ceil(containerHeight / itemHeight),
    items.length - 1)] *)
Definition visibleEnd (len : Z) (g : Geometry) : Z :=
  Z.min (visibleStart g + Qceiling (containerHeight g / itemHeight g))
        (len - 1).

(** [Math.max(0, visibleStart - overscan)] *)
Definition windowStart (g : Geometry) : Z :=
  Z.max 0 (visibleStart g - overscan g).

(** [Math.min(items.length - 1, visibleEnd + overscan)] *)
Definition windowEnd (len : Z) (g : Geometry) : Z :=
  Z.min (len - 1) (visibleEnd len g + overscan g).

(** [visibleItems]: the rows that are rendered, each with its index. *)
Definition visibleItems {A : Type} (items : list A) (g : Geometry)
  : list (A * Z) :=
  let len := Z.of_nat (List.length items) in
  let start := windowStart g in
  let finish := windowEnd len g in
  mapFrom (fun item index => (item, (start + index)%Z)) 0
          (slice items start (finish + 1)).

(** [totalHeight] *)
Definition totalHeight {A : Type} (items : list A) (g : Geometry) : Q :=
  inject_Z (Z.of_nat (List.length items)) * itemHeight g.

(** [offsetY] *)
Definition offsetY (g : Geometry) : Q :=
  inject_Z (windowStart g) * itemHeight g.

End VirtualList.

Module VirtualListFacts.
Import VirtualList.

Lemma nth_error_mapFrom (A B : Type) (f : A -> Z -> B) (arr : list A) :
  forall index k,
    nth_error (mapFrom f index arr) k
    = option_map (fun item => f item (index + Z.of_nat k)%Z) (nth_error arr k).
Proof.
  induction arr as [|x rest IH]; intros index k.
  - now destruct k.
  - destruct k as [|k]; simpl.
    + now rewrite Z.add_0_r.
    + rewrite IH. destruct (nth_error rest k); simpl; [|reflexivity].
      do 2 f_equal. lia.
Qed.

Lemma nth_error_slice (A : Type) (arr : list A) (start finish : Z) (k : nat) :
  (0 <= start)%Z -> (0 <= finish)%Z ->
  nth_error (slice arr start finish) k
  = if (start + Z.of_nat k <? finish)%Z
    then nth_error arr (Z.to_nat start + k) else None.
Proof.
  intros Hs Hf. unfold slice.
  replace (start <? 0)%Z with false by (symmetry; apply Z.ltb_ge; lia).
  replace (finish <? 0)%Z with false by (symmetry; apply Z.ltb_ge; lia).
  rewrite nth_error_firstn, nth_error_skipn.
  set (len := Z.of_nat (List.length arr)).
  destruct (start + Z.of_nat k <? finish)%Z eqn:Hin.
  - apply Z.ltb_lt in Hin.
    destruct (Z.lt_ge_cases (start + Z.of_nat k) len) as [Hlt|Hge].
    + replace (k <? Z.to_nat (Z.min finish len - Z.min start len))%nat
        with true by (symmetry; apply Nat.ltb_lt; lia).
      f_equal. lia.
    + assert (Hnone : forall j, (List.length arr <= j)%nat ->
                                nth_error arr j = None)
        by (intros j Hj; now apply nth_error_None).
      rewrite (Hnone (Z.to_nat start + k)%nat) by (unfold len in Hge; lia).
      destruct (k <? _)%nat; [|reflexivity].
      apply Hnone. unfold len in Hge. lia.
  - apply Z.ltb_ge in Hin.
    replace (k <? Z.to_nat (Z.min finish len - Z.min start len))%nat
      with false by (symmetry; apply Nat.ltb_ge; lia).
    reflexivity.
Qed.

Section Window.
Variable A : Type.
Variable items : list A.
Variable g : Geometry.

Hypothesis itemHeight_positive : 0 < itemHeight g.
Hypothesis scrollTop_nonnegative : 0 <= scrollTop g.
Hypothesis containerHeight_nonnegative : 0 <= containerHeight g.
Hypothesis overscan_nonnegative : (0 <= overscan g)%Z.

Let len : Z := Z.of_nat (List.length items).

Lemma visibleStart_nonnegative : (0 <= visibleStart g)%Z.
Proof.
  unfold visibleStart. rewrite <- (Qfloor_Z 0). apply Qfloor_resp_le.
  apply Qle_shift_div_l; [exact itemHeight_positive|].
  change (inject_Z 0) with (0 : Q). rewrite Qmult_0_l.
  exact scrollTop_nonnegative.
Qed.

Lemma ceiling_nonnegative :
  (0 <= Qceiling (containerHeight g / itemHeight g))%Z.
Proof.
  rewrite <- (Qceiling_Z 0). apply Qceiling_resp_le.
  apply Qle_shift_div_l; [exact itemHeight_positive|].
  change (inject_Z 0) with (0 : Q). rewrite Qmult_0_l.
  exact containerHeight_nonnegative.
Qed.

Lemma windowEnd_bounds : (-1 <= windowEnd len g)%Z.
Proof.
  pose proof visibleStart_nonnegative. pose proof ceiling_nonnegative.
  unfold windowEnd, visibleEnd. subst len. lia.
Qed.

Lemma In_visibleItems (item : A) (index : Z) :
  In (item, index) (visibleItems items g) <->
  (windowStart g <= index <= windowEnd len g)%Z
  /\ nth_error items (Z.to_nat index) = Some item.
Proof.
  pose proof windowEnd_bounds as Hend.
  assert (Hstart : (0 <= windowStart g)%Z) by (unfold windowStart; lia).
  unfold visibleItems. fold len. split.
  - intros Hin. apply In_nth_error in Hin. destruct Hin as (k & Hk).
    rewrite nth_error_mapFrom, nth_error_slice in Hk by lia.
    destruct (windowStart g + Z.of_nat k <? windowEnd len g + 1)%Z eqn:Hlt;
      [|discriminate].
    apply Z.ltb_lt in Hlt.
    destruct (nth_error items (Z.to_nat (windowStart g) + k)) as [x|] eqn:Hx;
      [|discriminate].
    simpl in Hk. injection Hk as -> <-.
    split; [lia|]. rewrite <- Hx. f_equal. lia.
  - intros [Hrange Hnth].
    apply nth_error_In with (n := Z.to_nat (index - windowStart g)).
    rewrite nth_error_mapFrom, nth_error_slice by lia.
    replace (windowStart g + Z.of_nat (Z.to_nat (index - windowStart g))
             <? windowEnd len g + 1)%Z
      with true by (symmetry; apply Z.ltb_lt; lia).
    replace (Z.to_nat (windowStart g) + Z.to_nat (index - windowStart g))%nat
      with (Z.to_nat index) by lia.
    rewrite Hnth. simpl. do 2 f_equal. lia.
Qed.

(** X27.  Every row that overlaps the viewport is rendered: if the row of an
    item at index [i] starts above the bottom edge of the container and
    ends below its top edge, the item is among [visibleItems], paired
    with [i]. *)
Theorem rows_in_view_are_rendered (item : A) (index : nat) :
  nth_error items index = Some item ->
  inject_Z (Z.of_nat index) * itemHeight g < scrollTop g + containerHeight g ->
  scrollTop g < inject_Z (Z.of_nat index + 1) * itemHeight g ->
  In (item, Z.of_nat index) (visibleItems items g).
Proof.
  intros Hnth Htop Hbottom.
  assert (Hlen : (Z.of_nat index < len)%Z).
  { subst len. apply Nat2Z.inj_lt. apply nth_error_Some. congruence. }
  assert (Hfirst : (visibleStart g <= Z.of_nat index)%Z).
  { apply Z.lt_succ_r. rewrite Zlt_Qlt.
    apply Qle_lt_trans with (y := scrollTop g / itemHeight g);
      [apply Qfloor_le|].
    unfold Z.succ. now apply Qlt_shift_div_r. }
  assert (Hlast : (Z.of_nat index
                   <= visibleStart g
                      + Qceiling (containerHeight g / itemHeight g))%Z).
  { apply Z.lt_succ_r. rewrite Zlt_Qlt.
    assert (Hdiv : inject_Z (Z.of_nat index)
                   < (scrollTop g + containerHeight g) / itemHeight g)
      by now apply Qlt_shift_div_l.
    assert (Hsplit : (scrollTop g + containerHeight g) / itemHeight g
                     == scrollTop g / itemHeight g
                        + containerHeight g / itemHeight g)
      by (field; lra).
    pose proof (Qlt_floor (scrollTop g / itemHeight g)) as Hfloor.
    pose proof (Qle_ceiling (containerHeight g / itemHeight g)) as Hceil.
    fold (visibleStart g) in Hfloor.
    unfold Z.succ. rewrite !inject_Z_plus in *. lra. }
  apply In_visibleItems. split.
  - unfold windowStart, windowEnd, visibleEnd. fold len. lia.
  - now rewrite Nat2Z.id.
Qed.

(** X28.  What is rendered is a run of consecutive rows of the list, each paired
    with its own index; shifted by [offsetY], the k-th rendered row lies
    where its index times the row height puts it; and at most the rows of
    one container height plus twice the overscan, plus one, are
    rendered. *)
Theorem rendered_rows_are_a_window :
  (forall item index,
      In (item, index) (visibleItems items g) <->
      (windowStart g <= index <= windowEnd len g)%Z
      /\ nth_error items (Z.to_nat index) = Some item)
  /\ map snd (visibleItems items g)
     = map (fun k => (windowStart g + Z.of_nat k)%Z)
           (seq 0 (List.length (visibleItems items g)))
  /\ (forall k : nat,
        offsetY g + inject_Z (Z.of_nat k) * itemHeight g
        == inject_Z (windowStart g + Z.of_nat k) * itemHeight g)
  /\ (Z.of_nat (List.length (visibleItems items g))
      <= Qceiling (containerHeight g / itemHeight g) + 2 * overscan g + 1)%Z.
Proof.
  split; [exact In_visibleItems|].
  split; [|split; [intros k; unfold offsetY; rewrite inject_Z_plus; ring|]].
  - unfold visibleItems.
    generalize (slice items (windowStart g)
                      (windowEnd (Z.of_nat (List.length items)) g + 1)).
    intros rows.
    assert (Hgen : forall from,
               map snd (mapFrom (fun (item : A) index =>
                                   (item, (windowStart g + index)%Z))
                                from rows)
               = map (fun k => (windowStart g + (from + Z.of_nat k))%Z)
                     (seq 0 (List.length
                               (mapFrom (fun (item : A) index =>
                                           (item, (windowStart g + index)%Z))
                                        from rows)))).
    { induction rows as [|x rest IH]; intros from; [reflexivity|].
      cbn [mapFrom map List.length seq snd]. f_equal; [f_equal; lia|].
      rewrite IH, <- seq_shift, map_map. apply map_ext. intros k. lia. }
    rewrite Hgen. apply map_ext. intros k. lia.
  - pose proof visibleStart_nonnegative as Hvs.
    pose proof ceiling_nonnegative as Hceil.
    unfold visibleItems.
    assert (Hmap : forall (rows : list A) from,
               List.length (mapFrom (fun (item : A) index =>
                                       (item, (windowStart g + index)%Z))
                                    from rows)
               = List.length rows).
    { induction rows as [|x rest IH]; intros from; simpl; auto. }
    rewrite Hmap. unfold slice. rewrite length_firstn.
    unfold windowStart, windowEnd, visibleEnd in *. fold len.
    destruct (Z.max 0 (visibleStart g - overscan g) <? 0)%Z eqn:H1;
      destruct (Z.min (len - 1)
                      (Z.min (visibleStart g
                              + Qceiling (containerHeight g / itemHeight g))
                             (len - 1) + overscan g) + 1 <? 0)%Z eqn:H2;
      try apply Z.ltb_lt in H1; try apply Z.ltb_ge in H1;
      try apply Z.ltb_lt in H2; try apply Z.ltb_ge in H2; lia.
Qed.

End Window.

Lemma rows_in_view_are_rendered_witness :
  In ("c"%string, Z.of_nat 2)
     (visibleItems ["a"; "b"; "c"; "d"]%string
        {| itemHeight := 10; containerHeight := 15; scrollTop := 25;
           overscan := 0 |}).
Proof.
  apply (@rows_in_view_are_rendered string ["a"; "b"; "c"; "d"]%string
           {| itemHeight := 10; containerHeight := 15; scrollTop := 25;
              overscan := 0 |});
    try reflexivity; simpl; try lia; try (vm_compute; discriminate).
Defined.

Lemma rendered_rows_are_a_window_witness :
  map snd (visibleItems ["a"; "b"; "c"; "d"]%string
             {| itemHeight := 10; containerHeight := 15; scrollTop := 25;
                overscan := 1 |})
  = map (fun k => (windowStart {| itemHeight := 10; containerHeight := 15;
                                  scrollTop := 25; overscan := 1 |}
                   + Z.of_nat k)%Z)
        (seq 0 (List.length
                  (visibleItems ["a"; "b"; "c"; "d"]%string
                     {| itemHeight := 10; containerHeight := 15;
                        scrollTop := 25; overscan := 1 |}))).
Proof.
  assert (H1 : 0 < 10) by reflexivity.
  assert (H2 : 0 <= 25) by (vm_compute; discriminate).
  assert (H3 : 0 <= 15) by (vm_compute; discriminate).
  assert (H4 : (0 <= 1)%Z) by lia.
  exact (proj1 (proj2 (@rendered_rows_are_a_window string
                         ["a"; "b"; "c"; "d"]%string
                         {| itemHeight := 10; containerHeight := 15;
                            scrollTop := 25; overscan := 1 |}
                         H1 H2 H3 H4))).
Defined.

End VirtualListFacts.

(** ** The default sort key *)

Module NameSortFacts.
Import JsString JsArray JsArrayFacts Products SortOrderFacts.
Local Open Scope string_scope.

(** [a]'s title does not collate after [b]'s (a title that is not a
    string counts as the empty string, as in the reducer). *)
Definition titleNotAfter `{Intl} (a b : Product) : Prop :=
  (localeCompare (safeString (title a)) (JsString (safeString (title b)))
   <= 0)%Z.

Section PerCollation.
Context {I : Intl}.

Hypothesis collation_total :
  forall s t, ~ (localeCompare s (JsString t) <= 0)%Z ->
              (localeCompare t (JsString s) <= 0)%Z.
Hypothesis collation_trans :
  forall s t u, (localeCompare s (JsString t) <= 0)%Z ->
                (localeCompare t (JsString u) <= 0)%Z ->
                (localeCompare s (JsString u) <= 0)%Z.

(** X21.  With a collation that orders the strings (any two comparable,
    transitively), the reducer's list under the sort key "name" has its
    titles in collation order, and products with one and the same title
    keep the order they had. *)
Theorem name_sort_orders_titles (filtered : list Product) :
  StronglySorted titleNotAfter (applySort "name" filtered)
  /\ (forall text,
        filter (fun p => String.eqb (safeString (title p)) text)
               (applySort "name" filtered)
        = filter (fun p => String.eqb (safeString (title p)) text) filtered).
Proof.
  change (applySort "name" filtered)
    with (sort (fun a b =>
                  inject_Z (localeCompare (safeString (title a))
                                          (JsString (safeString (title b)))))
               filtered).
  assert (Hle : forall z : Z, inject_Z z <= 0 <-> (z <= 0)%Z).
  { intros z. change (0 : Q) with (inject_Z 0). now rewrite <- Zle_Qle. }
  split.
  - apply (StronglySorted_weaken
             (R := notAfter (fun a b =>
                     inject_Z (localeCompare (safeString (title a))
                                 (JsString (safeString (title b))))))).
    + intros a b Hab. unfold titleNotAfter. now apply Hle.
    + apply sort_sorted.
      * intros a b Hab. apply Hle. apply collation_total.
        intros Hc. apply Hab. now apply Hle.
      * intros a b c Hab Hbc. apply Hle.
        apply collation_trans with (t := safeString (title b)); now apply Hle.
  - intros text. apply sort_stable. intros a b Ha Hb.
    apply String.eqb_eq in Ha, Hb. rewrite Ha, Hb. apply Hle.
    destruct (Z_le_gt_dec (localeCompare text (JsString text)) 0) as [Hok|Hgt];
      [exact Hok|].
    apply collation_total. lia.
Qed.

End PerCollation.

Lemma ascii_compare_trans (a b c : ascii) :
  Ascii.compare a b <> Gt -> Ascii.compare b c <> Gt ->
  Ascii.compare a c <> Gt.
Proof.
  unfold Ascii.compare. rewrite !N.compare_le_iff. lia.
Qed.

Lemma ascii_compare_eq_trans (a b c : ascii) :
  Ascii.compare a b = Eq -> Ascii.compare b c = Ascii.compare a c.
Proof.
  intros Hab. apply Ascii.compare_eq_iff in Hab. now subst.
Qed.

Lemma string_compare_trans (s : string) :
  forall t u,
    String.compare s t <> Gt -> String.compare t u <> Gt ->
    String.compare s u <> Gt.
Proof.
  induction s as [|a s IH]; intros [|b t] [|c u]; simpl; try congruence.
  destruct (Ascii.compare a b) eqn:Hab; try congruence.
  - rewrite <- (@ascii_compare_eq_trans a b c Hab).
    destruct (Ascii.compare b c); try congruence. apply IH.
  - intros _ Hbc.
    assert (Hbc' : Ascii.compare b c <> Gt)
      by (destruct (Ascii.compare b c); congruence).
    assert (Hac : Ascii.compare a c <> Gt).
    { apply ascii_compare_trans with (b := b); [congruence | exact Hbc']. }
    destruct (Ascii.compare a c) eqn:Hac'; try congruence.
    exfalso. apply Ascii.compare_eq_iff in Hac'. subst c.
    rewrite Ascii.compare_antisym, Hab in Hbc'. simpl in Hbc'. congruence.
Qed.

Lemma codeUnitCompare_le (s t : string) :
  (codeUnitCompare s (JsString t) <= 0)%Z <-> String.compare s t <> Gt.
Proof.
  unfold codeUnitCompare. simpl.
  destruct (String.compare s t); split; intros H; try lia; congruence.
Qed.

Lemma name_sort_orders_titles_witness :
  StronglySorted (@titleNotAfter codeUnitIntl)
    (@applySort codeUnitIntl "name"
       [ProductsFacts.redShoe; ProductsFacts.blueHat]).
Proof.
  refine (proj1 (@name_sort_orders_titles codeUnitIntl _ _
                   [ProductsFacts.redShoe; ProductsFacts.blueHat])).
  - intros s t Hst. simpl in *. apply codeUnitCompare_le.
    rewrite String.compare_antisym.
    destruct (String.compare s t) eqn:Hc; simpl; try congruence.
    exfalso. apply Hst. apply codeUnitCompare_le. congruence.
  - intros s t u Hst Htu. simpl in *. apply codeUnitCompare_le.
    apply string_compare_trans with (t := t); now apply codeUnitCompare_le.
Defined.

End NameSortFacts.

(** * The price shown on a product card *)

Module ProductCard.
Import Products.

(** [product.price * (1 - product.discountPercentage / 100)], computed
    alike by [ProductItem] and [ProductDetail]. *)
Definition discountedPrice (product : Product) : Q :=
  price product * (1 - discountPercentage product / 100).

(** [product.discountPercentage > 0]: the discount badge and the list
    price, struck through, are shown. *)
Definition showsDiscount (product : Product) : bool :=
  negb (Qle_bool (discountPercentage product) 0).

End ProductCard.

Module ProductCardFacts.
Import Products ProductCard.

(** X29.  For a price that is not negative and a discount between 0 and 100
    per cent, in exact arithmetic: the price shown lies between 0 and the
    list price; and whenever the card shows the list price struck through
    and the list price is positive, the price shown is strictly below
    it. *)
Theorem discountedPrice_bounds (product : Product) :
  0 <= price product ->
  0 <= discountPercentage product <= 100 ->
  0 <= discountedPrice product <= price product
  /\ (showsDiscount product = true -> 0 < price product ->
      discountedPrice product < price product)
  /\ (showsDiscount product = false -> discountedPrice product == price product).
Proof.
  intros Hprice [Hlow Hhigh]. unfold discountedPrice, showsDiscount.
  set (p := price product) in *. set (d := discountPercentage product) in *.
  assert (Hfrac : 0 <= d / 100 <= 1).
  { split.
    - apply Qle_shift_div_l; [reflexivity | lra].
    - apply Qle_shift_div_r; [reflexivity | lra]. }
  split; [|split].
  - split; nra.
  - intros Hshow Hpos. apply negb_true_iff in Hshow.
    assert (Hd : 0 < d).
    { apply Qnot_le_lt. intros Hle. apply Qle_bool_iff in Hle. congruence. }
    assert (Hfpos : 0 < d / 100)
      by (apply Qlt_shift_div_l; [reflexivity | lra]).
    nra.
  - intros Hshow. apply negb_false_iff, Qle_bool_iff in Hshow.
    assert (Hzero : d == 0) by lra.
    rewrite Hzero. field.
Qed.

(** A mug at 20 with a quarter off. *)
Definition mug : Product :=
  {| id := 9; title := JsString "Mug"; description := JsString "A mug";
     price := 20; discountPercentage := 25; rating := 4; stock := 3;
     brand := JsUndefined; category := JsString "kitchen";
     thumbnail := "mug.png"; images := [] |}.

Lemma discountedPrice_bounds_witness :
  0 <= discountedPrice mug <= price mug
  /\ discountedPrice mug < price mug.
Proof.
  assert (H0 : 0 <= price mug) by (vm_compute; discriminate).
  assert (H1 : 0 <= discountPercentage mug <= 100)
    by (split; vm_compute; discriminate).
  destruct (@discountedPrice_bounds mug H0 H1) as (Hrange & Hbelow & _).
  split; [exact Hrange|].
  apply Hbelow; reflexivity.
Defined.

End ProductCardFacts.
